(** * finn.util.data_packing: bit packing of tensors into hex words

    A shallow embedding of [src/finn/util/data_packing.py]:
    [array2hexstring], [pack_innermost_dim_as_hex_string] and
    [unpack_innermost_dim_from_hex_string], together with the parts of
    Python, [bitstring] and [numpy] these three functions run on; then the
    two adapters of the simulation, [npy_to_rtlsim_input] and
    [rtlsim_output_to_npy], and the packing step of [numpy_to_hls_code].
    The printing of [numpy_to_hls_code] is numpy's [array2string] and is
    not embedded.

    Conventions.
    - A sample is a finite value of the float32 container.  Finite floats
      are rationals, so samples are [Q]; the conversions of lines 24-26,
      66-68, 129-131 and 184 to a float32 array are the identity on the
      float32 values ([float32_value]) and are not applied by the model:
      a statement that depends on what these lines do to other numbers
      assumes that the samples are float32 values ([float32_row]).  The
      arithmetic of line 31 is exact on the legal bipolar samples -1 and
      +1.  Infinities and NaN are not samples of the model.
    - Python integers are [Z]; bit counts, lengths and shape entries are
      [nat]; [pad_to_nbits] is compared before it is used as a length, so
      it stays a [Z].
    - A raised exception is a value of [exn]; a computation that can raise
      returns a [result].
    - The unpacker pops words off the list it is given: it returns its
      result together with what is left of that list.
    - The unpacker's result holds the integers of the nested list [array];
      line 115 stores them in a float32 array, which is exact for every
      integer that is a float32 value and rounds, or raises OverflowError,
      on the others: a statement about the array a call returns assumes,
      or shows, that these integers are float32 values
      ([float32_ints]). *)

From Stdlib Require Import ZArith QArith List String Ascii Lia Bool DecimalString.
From Stdlib Require Qcanon.
Import ListNotations.
Local Open Scope Z_scope.

(** ** Exceptions *)

Inductive exn : Type :=
| AssertionError
| CreationError                (* bitstring: value does not fit the length *)
| InterpretError               (* bitstring: hex of a length not a multiple of 4 *)
| Exception (msg : string)     (* raise Exception(msg) *)
| IndexError
| ValueError
| AxisError.

Inductive result (A : Type) : Type :=
| Ok (a : A)
| Raise (e : exn).

Arguments Ok {A} a.
Arguments Raise {A} e.

Definition bind {A B : Type} (r : result A) (k : A -> result B) : result B :=
  match r with
  | Ok a => k a
  | Raise e => Raise e
  end.

Notation "x <- r ;; k" := (bind r (fun x => k))
  (at level 61, r at next level, right associativity).

(** The message of line 49, which the specification calls PackingOverflow. *)
Definition PackingOverflow : exn :=
  Exception "Number of bits is greater than pad_to_nbits".

(** ** Python built-ins used by the module *)

Module Py.

(** [int(val)] on a float: truncation toward zero. *)
Definition int_of_float (x : Q) : Z := Z.quot (Qnum x) (Zpos (Qden x)).

(** [float(value).is_integer()]. *)
Definition is_integer (x : Q) : bool := Z.rem (Qnum x) (Zpos (Qden x)) =? 0.

(** [s.split(sep)] for a one-character separator. *)
Fixpoint split (sep : ascii) (s : string) : list string :=
  match s with
  | EmptyString => [EmptyString]
  | String c s' =>
      if Ascii.eqb c sep then EmptyString :: split sep s'
      else match split sep s' with
           | h :: t => String c h :: t
           | [] => [String c EmptyString]
           end
  end.

(** White space as [int()] skips it around a literal: the blank and the
    characters 9 to 13. *)
Definition is_space (c : ascii) : bool :=
  let n := nat_of_ascii c in
  ((n =? 32) || ((9 <=? n) && (n <=? 13)))%nat.

Definition hex_value (c : ascii) : option Z :=
  let n := Z.of_nat (nat_of_ascii c) in
  if (48 <=? n) && (n <=? 57) then Some (n - 48)
  else if (97 <=? n) && (n <=? 102) then Some (n - 87)
  else if (65 <=? n) && (n <=? 70) then Some (n - 55)
  else None.

Fixpoint lstrip (s : string) : string :=
  match s with
  | String c s' => if is_space c then lstrip s' else s
  | EmptyString => EmptyString
  end.

Definition all_space (s : string) : bool :=
  match lstrip s with EmptyString => true | _ => false end.

(** The digit loop of [int(s, 16)]: hex digits with single underscores
    between them.  [prev_us] tells that the previous character was an
    underscore, [seen] that a digit was read.  The loop stops at the first
    character that is neither; what follows must be white space. *)
Fixpoint scan16 (s : string) (prev_us seen : bool) (acc : Z) : option Z :=
  match s with
  | EmptyString => if prev_us || negb seen then None else Some acc
  | String c s' =>
      if Ascii.eqb c "_" then
        if prev_us then None else scan16 s' true seen acc
      else
        match hex_value c with
        | Some d => scan16 s' false true (16 * acc + d)
        | None =>
            if prev_us || negb seen || negb (all_space s) then None
            else Some acc
        end
  end.

(** After white space and sign: an optional [0x]/[0X] with one optional
    underscore, then the digits, which may not start with an underscore. *)
Definition unsigned16 (s : string) : option Z :=
  let body :=
    match s with
    | String c (String p s') =>
        if Ascii.eqb c "0" && (Ascii.eqb p "x" || Ascii.eqb p "X") then
          match s' with
          | String u s'' => if Ascii.eqb u "_" then s'' else s'
          | EmptyString => s'
          end
        else s
    | _ => s
    end in
  match body with
  | String u _ => if Ascii.eqb u "_" then None else scan16 body false false 0
  | EmptyString => None
  end.

(** [int(s, 16)]; [None] stands for ValueError. *)
Definition int16 (s : string) : option Z :=
  match lstrip s with
  | String c s' =>
      if Ascii.eqb c "+" then unsigned16 s'
      else if Ascii.eqb c "-" then option_map Z.opp (unsigned16 s')
      else unsigned16 (String c s')
  | EmptyString => None
  end.

(** The digits [.hex] writes. *)
Definition is_lower_hex (c : ascii) : bool :=
  let n := nat_of_ascii c in
  (((48 <=? n) && (n <=? 57)) || ((97 <=? n) && (n <=? 102)))%nat.

(** Binary digits of a positive number, most significant first. *)
Fixpoint pos_digits (p : positive) : list bool :=
  match p with
  | xH => [true]
  | xO p' => pos_digits p' ++ [false]
  | xI p' => pos_digits p' ++ [true]
  end.

(** [bin(n)[2:]] for [n >= 0], as the list of its digits. *)
Definition bin_digits (n : Z) : list bool :=
  match n with
  | Zpos p => pos_digits p
  | _ => [false]
  end.

(** [s.zfill(width)] on a string of digits. *)
Definition zfill (width : nat) (digits : list bool) : list bool :=
  repeat false (width - List.length digits) ++ digits.

(** [l[lower:upper]] for non-negative bounds. *)
Definition slice {A : Type} (l : list A) (lower upper : nat) : list A :=
  skipn lower (firstn upper l).

End Py.

(** ** The numeric domain descriptor *)

Module DataType.

(** Modelled from the spec: [finn.core.datatype.DataType] is imported by
    the module and is not among the sources.  The specification gives the
    domains (bipolar, 1-bit binary, unsigned and signed integers of width
    W, 32-bit float) and the four queries [bitwidth], [signed],
    [is_integer] and [allowed]. *)
Inductive t : Type :=
| BIPOLAR
| BINARY
| UINT (w : positive)
| INT (w : positive)
| FLOAT32.

(** Modelled from the spec: [bitwidth()], one bit for the bipolar and the
    binary domain, W for the integers, 32 for the float. *)
Definition bitwidth (d : t) : nat :=
  match d with
  | BIPOLAR | BINARY => 1
  | UINT w | INT w => Pos.to_nat w
  | FLOAT32 => 32
  end.

(** Modelled from the spec: [is_integer()], every domain but the float. *)
Definition is_integer (d : t) : bool :=
  match d with FLOAT32 => false | _ => true end.

(** Modelled from the spec: [signed()], the domains that hold a negative
    value. *)
Definition signed (d : t) : bool :=
  match d with BINARY | UINT _ => false | _ => true end.

(** Modelled from the spec: [allowed(value)].  The legal values are -1 and
    +1, 0 and 1, the integers of the unsigned range 0 .. 2^W - 1, the
    integers of the two's-complement range -2^(W-1) .. 2^(W-1) - 1, and
    every float. *)
Definition allowed (d : t) (x : Q) : bool :=
  match d with
  | FLOAT32 => true
  | BIPOLAR => Qeq_bool x (-1 # 1) || Qeq_bool x (1 # 1)
  | BINARY => Qeq_bool x (0 # 1) || Qeq_bool x (1 # 1)
  | UINT w =>
      Qle_bool (0 # 1) x && Qle_bool x (inject_Z (2 ^ Z.pos w - 1))
      && Py.is_integer x
  | INT w =>
      Qle_bool (inject_Z (- 2 ^ (Z.pos w - 1))) x
      && Qle_bool x (inject_Z (2 ^ (Z.pos w - 1) - 1))
      && Py.is_integer x
  end.

(** [==] on the members of the enumeration. *)
Definition eqb (a b : t) : bool :=
  match a, b with
  | BIPOLAR, BIPOLAR | BINARY, BINARY | FLOAT32, FLOAT32 => true
  | UINT v, UINT w | INT v, INT w => Pos.eqb v w
  | _, _ => false
  end.

(** The two members line 110 names. *)
Definition INT2 : t := INT 2.
Definition INT32 : t := INT 32.

End DataType.

(** ** bitstring.BitArray *)

Module BitArray.

(** A bit array is the list of its bits, most significant first. *)
Definition t : Type := list bool.

(** [BitArray(length=n)]: [n] zero bits. *)
Definition zeros (n : nat) : t := repeat false n.

(** The [w] low bits of [z] in two's complement. *)
Fixpoint of_Z (w : nat) (z : Z) : t :=
  match w with
  | O => []
  | S w' => Z.testbit z (Z.of_nat w') :: of_Z w' z
  end.

(** [BitArray(uint=z, length=w)]. *)
Definition of_uint (z : Z) (w : nat) : result t :=
  if (0 <? Z.of_nat w) && (0 <=? z) && (z <? 2 ^ Z.of_nat w)
  then Ok (of_Z w z) else Raise CreationError.

(** [BitArray(int=z, length=w)]. *)
Definition of_int (z : Z) (w : nat) : result t :=
  if (0 <? Z.of_nat w) && (- 2 ^ (Z.of_nat w - 1) <=? z)
     && (z <? 2 ^ (Z.of_nat w - 1))
  then Ok (of_Z w z) else Raise CreationError.

(** [BitArray(float=val, length=32)], given the binary32 pattern of [val]. *)
Definition of_float (pattern : Z) (w : nat) : result t :=
  if (w =? 32)%nat then Ok (of_Z 32 pattern) else Raise CreationError.

(** [.uint]: the bits read as an unsigned number. *)
Definition uint (b : t) : Z :=
  fold_left (fun acc (x : bool) => 2 * acc + (if x then 1 else 0)) b 0.

Definition hex_digit (b3 b2 b1 b0 : bool) : ascii :=
  match Z.to_nat (uint [b3; b2; b1; b0]) with
  | 0%nat => "0" | 1%nat => "1" | 2%nat => "2" | 3%nat => "3"
  | 4%nat => "4" | 5%nat => "5" | 6%nat => "6" | 7%nat => "7"
  | 8%nat => "8" | 9%nat => "9" | 10%nat => "a" | 11%nat => "b"
  | 12%nat => "c" | 13%nat => "d" | 14%nat => "e" | _ => "f"
  end%char.

(** [.hex]: one lowercase digit per four bits; a length that is not a
    multiple of four cannot be rendered. *)
Fixpoint hex (b : t) : result string :=
  match b with
  | [] => Ok EmptyString
  | b3 :: b2 :: b1 :: b0 :: rest =>
      s <- hex rest ;; Ok (String (hex_digit b3 b2 b1 b0) s)
  | _ => Raise InterpretError
  end.

End BitArray.

(** ** numpy arrays *)

(** An n-dimensional array: its shape and its elements in row-major order. *)
Record ndarray (A : Type) : Type := mk_ndarray {
  shape : list nat;
  flat : list A
}.

Arguments mk_ndarray {A} shape flat.
Arguments shape {A} n.
Arguments flat {A} n.

(** Number of elements of a shape. *)
Definition size_of (shp : list nat) : nat := fold_left Nat.mul shp 1%nat.

(** The [i]-th slice of length [n] of a row-major buffer. *)
Definition row {A : Type} (n : nat) (buf : list A) (i : nat) : list A :=
  firstn n (skipn (i * n) buf).

(** [func1d] applied to the rows in order; the first failure is raised. *)
Fixpoint map_rows {A B : Type} (f : list A -> result B)
    (rows : list (list A)) : result (list B) :=
  match rows with
  | [] => Ok []
  | r :: rest => y <- f r ;; ys <- map_rows f rest ;; Ok (y :: ys)
  end.

(** [np.apply_along_axis(func1d, a.ndim - 1, a)] for a [func1d] that
    returns a scalar.  A 0-dimensional array has no axis -1 (AxisError), and
    numpy raises ValueError, "Cannot apply_along_axis when any iteration
    dimensions are 0", when there is no slice to apply [func1d] to. *)
Definition apply_along_last_axis {A B : Type} (f : list A -> result B)
    (a : ndarray A) : result (ndarray B) :=
  match shape a with
  | [] => Raise AxisError
  | _ :: _ =>
      let inner := last (shape a) 0%nat in
      let outer := removelast (shape a) in
      match size_of outer with
      | O => Raise ValueError
      | count =>
          cells <- map_rows f (map (row inner (flat a)) (seq 0 count)) ;;
          Ok (mk_ndarray outer cells)
      end
  end.

(** ** The codec *)

Section Codec.

(** The IEEE-754 binary32 pattern of a sample, as [bitstring] computes it
    for [BitArray(float=val, length=32)]; the library is not part of the
    repository, so the pattern is a parameter of the codec. *)
Variable float_pattern : Q -> Z.

(** *** array2hexstring *)

(** Lines 38-44: the bit field of one sample. *)
Definition field (dtype : DataType.t) (val : Q) : result BitArray.t :=
  let bw := DataType.bitwidth dtype in
  if DataType.is_integer dtype then
    if DataType.signed dtype
    then BitArray.of_int (Py.int_of_float val) bw
    else BitArray.of_uint (Py.int_of_float val) bw
  else BitArray.of_float (float_pattern val) bw.

(** Lines 35-44: the loop over the samples, appending to [lineval]. *)
Fixpoint append_fields (dtype : DataType.t) (array : list Q)
    (lineval : BitArray.t) : result BitArray.t :=
  match array with
  | [] => Ok lineval
  | val :: rest =>
      if DataType.allowed dtype val then
        bits <- field dtype val ;;
        append_fields dtype rest (lineval ++ bits)
      else Raise AssertionError
  end.

(** Line 31: [(array + 1) / 2].  The division is the exact one; float32
    arithmetic gives the same on the legal samples -1 and +1. *)
Definition bipolar_to_binary (x : Q) : Q := ((x + 1) / 2)%Q.

(** Lines 21-51.  The row is a one-dimensional array (line 28): a list.
    Lines 24-26 store it as float32, which leaves a row of float32 values
    ([float32_row]) as it is; the model does not round other numbers, and
    the statements that depend on it assume a row of float32 values. *)
Definition array2hexstring (array : list Q) (dtype : DataType.t)
    (pad_to_nbits : Z) (prefix : string) : result string :=
  let pad_to_nbits := if pad_to_nbits <? 4 then 4 else pad_to_nbits in
  let '(array, dtype) :=
    if DataType.eqb dtype DataType.BIPOLAR
    then (map bipolar_to_binary array, DataType.BINARY)
    else (array, dtype) in
  lineval <- append_fields dtype array [] ;;
  if pad_to_nbits >=? Z.of_nat (List.length lineval) then
    let lineval :=
      BitArray.zeros (Z.to_nat (pad_to_nbits - Z.of_nat (List.length lineval)))
      ++ lineval in
    digits <- BitArray.hex lineval ;;
    Ok (prefix ++ digits)%string
  else Raise PackingOverflow.

(** *** pack_innermost_dim_as_hex_string *)

(** Lines 66-73.  The conversion of lines 66-68 is that of lines 24-26:
    it leaves an array of float32 values as it is. *)
Definition pack_innermost_dim_as_hex_string (a : ndarray Q)
    (dtype : DataType.t) (pad_to_nbits : Z) : result (ndarray string) :=
  let fun_ x := array2hexstring x dtype pad_to_nbits "0x" in
  apply_along_last_axis fun_ a.

(** *** unpack_innermost_dim_from_hex_string *)

(** Lines 95-101: the chunks of the reversed bit list, in the order the
    loop appends them; [int("", 2)] raises on an empty chunk. *)
Fixpoint chunks (ar_elem_bin : list bool) (targetBits : nat)
    (indices : list nat) (ar_list : list Z) : result (list Z) :=
  match indices with
  | [] => Ok ar_list
  | i :: rest =>
      let upper_limit := ((i + 1) * targetBits)%nat in
      let lower_limit := (i * targetBits)%nat in
      let elem := rev (Py.slice ar_elem_bin lower_limit upper_limit) in
      match elem with
      | [] => Raise ValueError
      | _ => chunks ar_elem_bin targetBits rest (ar_list ++ [BitArray.uint elem])
      end
  end.

(** Lines 107-112: the corrections of the rtlsim branch. *)
Definition rtlsim_adjust (dtype : DataType.t) (ar_list : list Z) : list Z :=
  if DataType.eqb dtype DataType.BIPOLAR then
    map (fun x => 2 * x - 1) ar_list
  else if DataType.eqb dtype DataType.INT2 || DataType.eqb dtype DataType.INT32 then
    let mask := 2 ^ (Z.of_nat (DataType.bitwidth dtype) - 1) in
    map (fun x => - (Z.land x mask) + Z.land x (Z.lnot mask)) ar_list
  else ar_list.

(** Lines 90-91: the text after the first [x] of the word, read in base 16. *)
Definition parse_word (ar_elem : string) : result Z :=
  match nth_error (Py.split "x" ar_elem) 1 with
  | None => Raise IndexError
  | Some literal =>
      match Py.int16 literal with
      | None => Raise ValueError
      | Some n => Ok n
      end
  end.

(** Lines 91-101: the raw chunk values of one word.  A negative number
    leaves the [b] of [bin] in the digit string, on which [int(x)] raises. *)
Definition raw_values (inner_dim_elems packedBits targetBits : nat)
    (ar_elem : string) : result (list Z) :=
  n <- parse_word ar_elem ;;
  if n <? 0 then Raise ValueError
  else
    let ar_elem_bin := Py.zfill packedBits (Py.bin_digits n) in
    let ar_elem_bin := rev ar_elem_bin in
    chunks ar_elem_bin targetBits (seq 0 inner_dim_elems) [].

(** Lines 88-112 after the pop: one packed word to the values of one row. *)
Definition decode_word (dtype : DataType.t) (inner_dim_elems packedBits
    targetBits : nat) (rtlsim : bool) (ar_elem : string) : result (list Z) :=
  ar_list <- raw_values inner_dim_elems packedBits targetBits ar_elem ;;
  Ok (if rtlsim then rtlsim_adjust dtype ar_list else rev ar_list).

(** A computation on the caller's list [data], which it may shorten. *)
Definition consumer (A : Type) : Type := list string -> result A * list string.

(** Lines 88-89: [data[0]] followed by [data.pop(0)]. *)
Definition pop_front : consumer string :=
  fun data =>
    match data with
    | [] => (Raise IndexError, data)
    | w :: rest => (Ok w, rest)
    end.

(** Lines 86-114: the loop over the outer positions. *)
Fixpoint unpack_rows (dtype : DataType.t) (inner_dim_elems packedBits
    targetBits : nat) (rtlsim : bool) (outer_dim_elems : nat)
    (array : list (list Z)) : consumer (list (list Z)) :=
  fun data =>
    match outer_dim_elems with
    | O => (Ok array, data)
    | S remaining =>
        match pop_front data with
        | (Raise e, data) => (Raise e, data)
        | (Ok ar_elem, data) =>
            match decode_word dtype inner_dim_elems packedBits targetBits
                    rtlsim ar_elem with
            | Raise e => (Raise e, data)
            | Ok ar_list =>
                unpack_rows dtype inner_dim_elems packedBits targetBits
                  rtlsim remaining (array ++ [ar_list]) data
            end
        end
    end.

(** Lines 80-116.  [shape[-1]] is read before the loop, so a shape without
    entries raises before any word is popped.  The rows all have
    [inner_dim_elems] entries, so the reshape of line 115 cannot fail.
    The result holds the integers of the rows; line 115 stores them as
    float32, which leaves them as they are when they are float32 values
    ([float32_ints]), and rounds them, or raises OverflowError, when they
    are not: the model does not, and a statement about the array of a
    returning call is about integers that are float32 values. *)
Definition unpack_innermost_dim_from_hex_string (data : list string)
    (dtype : DataType.t) (shp : list nat) (packedBits targetBits : nat)
    (rtlsim : bool) : result (ndarray Z) * list string :=
  let outer_dim_elems := size_of (removelast shp) in
  match shp with
  | [] => (Raise IndexError, data)
  | _ :: _ =>
      let inner_dim_elems := last shp 0%nat in
      match unpack_rows dtype inner_dim_elems packedBits targetBits rtlsim
              outer_dim_elems [] data with
      | (Raise e, data) => (Raise e, data)
      | (Ok array, data) => (Ok (mk_ndarray shp (List.concat array)), data)
      end
  end.

End Codec.

(** ** Vocabulary of the statements *)

(** Every character of a string satisfies [p]. *)
Fixpoint all_chars (p : ascii -> bool) (s : string) : bool :=
  match s with
  | EmptyString => true
  | String c s' => p c && all_chars p s'
  end.

(** The [i]-th field of [targetBits] bits of a number, counted from the least
    significant end, and the first [count] of them. *)
Definition field_at (n : Z) (targetBits i : nat) : Z :=
  (n / 2 ^ Z.of_nat (i * targetBits)) mod 2 ^ Z.of_nat targetBits.

Definition fields_of (n : Z) (targetBits count : nat) : list Z :=
  map (field_at n targetBits) (seq 0 count).


(** The integer a sample is stored as, before it is cut to the width of
    its field: line 31 for bipolar samples, lines 40-44 for the others. *)
Definition stored_int (float_pattern : Q -> Z) (dtype : DataType.t) (x : Q) : Z :=
  match dtype with
  | DataType.BIPOLAR => Py.int_of_float (bipolar_to_binary x)
  | DataType.FLOAT32 => float_pattern x
  | _ => Py.int_of_float x
  end.

(** The unsigned number the field of a sample holds. *)
Definition field_value (float_pattern : Q -> Z) (dtype : DataType.t) (x : Q) : Z :=
  stored_int float_pattern dtype x mod 2 ^ Z.of_nat (DataType.bitwidth dtype).

(** The bits of a row before padding. *)
Definition row_bits (float_pattern : Q -> Z) (dtype : DataType.t)
    (v : list Q) : BitArray.t :=
  List.concat (map (BitArray.of_Z (DataType.bitwidth dtype))
                 (map (stored_int float_pattern dtype) v)).

(** Every sample of the row is legal for the domain. *)
Definition legal (dtype : DataType.t) (v : list Q) : Prop :=
  Forall (fun x => DataType.allowed dtype x = true) v.

(** [len(v) * bitwidth]. *)
Definition natural_length (v : list Q) (dtype : DataType.t) : Z :=
  Z.of_nat (List.length v * DataType.bitwidth dtype).

(** The width the encoder pads to: [pad_to_nbits] raised to 4. *)
Definition padded_width (pad_to_nbits : Z) : Z := Z.max pad_to_nbits 4.

(** The binary32 patterns of the floats the examples use. *)
Definition example_pattern (x : Q) : Z :=
  if Qeq_bool x (1 # 1) then 1065353216
  else if Qeq_bool x (-2 # 1) then 3221225472
  else 0.

(** What the specification says of the returned string: [0x], lowercase
    hex digits, an even number of them. *)
Definition even_hex_string (s : string) : Prop :=
  exists digits,
    s = String "0" (String "x" digits)
    /\ all_chars Py.is_lower_hex digits = true
    /\ Nat.even (String.length digits) = true.

(** The values of a row in the orientation the mode flag asks for. *)
Definition oriented (dtype : DataType.t) (rtlsim : bool) (ar_list : list Z) : list Z :=
  if rtlsim then rtlsim_adjust dtype ar_list else rev ar_list.

(** The specification's round trip: the row is encoded, and decoding the
    string with [rtlsim] off, [packedBits] the padded width and [targetBits]
    the width of the domain gives the row back, element for element.  The
    integers returned are compared with the samples as numbers. *)
Definition round_trips (float_pattern : Q -> Z) (dtype : DataType.t)
    (v : list Q) (pad_to_nbits : Z) : Prop :=
  exists s zs,
    array2hexstring float_pattern v dtype pad_to_nbits "0x" = Ok s
    /\ unpack_innermost_dim_from_hex_string [s] dtype [List.length v]
         (Z.to_nat (padded_width pad_to_nbits)) (DataType.bitwidth dtype) false
       = (Ok (mk_ndarray [List.length v] zs), [])
    /\ Forall2 Qeq (map inject_Z zs) v.

(** A word as the encoder and [hex()] write it: [0x] and at least one
    lowercase hex digit. *)
Definition hex_word (w : string) : Prop :=
  exists digits,
    w = String "0" (String "x" digits)
    /\ all_chars Py.is_lower_hex digits = true
    /\ digits <> EmptyString.

(** The number a row denotes: its fields as the digits of a numeral in base
    2^bitwidth, the first sample most significant. *)
Definition row_number (float_pattern : Q -> Z) (dtype : DataType.t)
    (v : list Q) : Z :=
  fold_left
    (fun acc x =>
       acc * 2 ^ Z.of_nat (DataType.bitwidth dtype)
       + field_value float_pattern dtype x)
    v 0.

(** The domains whose samples the rtlsim branch gives back: those it
    corrects (bipolar, INT2, INT32) and those that hold no negative value. *)
Definition restored_by_rtlsim (dtype : DataType.t) : bool :=
  match dtype with
  | DataType.BIPOLAR | DataType.BINARY | DataType.UINT _ => true
  | DataType.INT w => (w =? 2)%positive || (w =? 32)%positive
  | DataType.FLOAT32 => false
  end.

(** The buffer of an array has as many elements as its shape says. *)
Definition well_shaped {A : Type} (a : ndarray A) : Prop :=
  List.length (flat a) = size_of (shape a).

(** *** The values of the float32 container *)

(** The number of trailing zero bits of a positive number, and what is left
    of the number without them. *)
Fixpoint trailing_zeros (p : positive) : nat :=
  match p with
  | xO p' => S (trailing_zeros p')
  | _ => O
  end.

Fixpoint odd_part (p : positive) : positive :=
  match p with
  | xO p' => odd_part p'
  | _ => p
  end.

(** [x] is a finite value of numpy's float32: zero, or an odd number [m]
    of at most 24 bits times a power [2^e] of two with [e >= -149] and
    [m * 2^e < 2^128].  These are the rationals that
    [np.asarray(.., dtype=np.float32)] stores without rounding. *)
Definition float32_value (x : Q) : bool :=
  match Qnum (Qred x) with
  | Z0 => true
  | Zpos n | Zneg n =>
      let d := Qden (Qred x) in
      let m := odd_part n in
      let e := Z.of_nat (trailing_zeros n) - Z.of_nat (trailing_zeros d) in
      Pos.eqb (odd_part d) 1
      && (Z.of_nat (Pos.size_nat m) <=? 24)
      && (-149 <=? e)
      && (e + Z.of_nat (Pos.size_nat m) <=? 128)
  end.

(** A row, or the buffer of an array, of float32 values: what lines 24-26,
    66-68, 129-131 and 184 leave as it is. *)
Definition float32_row (v : list Q) : Prop :=
  Forall (fun x => float32_value x = true) v.

(** Integers that line 115 stores in the float32 array without rounding
    and without overflow. *)
Definition float32_ints (zs : list Z) : Prop :=
  Forall (fun z => float32_value (inject_Z z) = true) zs.

(** ** More Python built-ins, used by the adapters *)

Module Python.

(** The lowercase digit of a number below 16. *)
Definition hex_char (d : Z) : ascii :=
  ascii_of_nat (Z.to_nat (if d <? 10 then 48 + d else 87 + d)).

(** The hex digits of a positive number, most significant first; one unit
    of fuel per binary digit is more than the loop needs. *)
Fixpoint hex_digits (fuel : nat) (n : Z) : string :=
  match fuel with
  | O => EmptyString
  | S fuel =>
      String.append
        (if n <? 16 then EmptyString else hex_digits fuel (n / 16))
        (String (hex_char (n mod 16)) EmptyString)
  end.

(** [hex(n)]: the sign, [0x], and the digits without leading zeros. *)
Definition hex (n : Z) : string :=
  match n with
  | Z0 => "0x0"%string
  | Zpos p => ("0x" ++ hex_digits (Pos.size_nat p) (Zpos p))%string
  | Zneg p => ("-0x" ++ hex_digits (Pos.size_nat p) (Zpos p))%string
  end.

(** [s[n:]]. *)
Fixpoint drop (n : nat) (s : string) : string :=
  match n, s with
  | S n', String _ s' => drop n' s'
  | _, _ => s
  end.

(** ["%d" % n] for a number that is not negative. *)
Definition decimal (n : nat) : string := NilZero.string_of_uint (Nat.to_uint n).

End Python.

(** ** The adapters of the simulation and of the HLS code generator *)

Section Adapters.

Variable float_pattern : Q -> Z.

(** [np.load]: the array a path holds, or the exception of the load.  The
    files are numpy's.  The statements assume that the array loaded holds
    float32 values ([float32_row]). *)
Variable np_load : string -> result (ndarray Q).

(** Lines 181-183: the last element moves to [inp_rev], [count] times. *)
Fixpoint reverse_loop (count : nat) (inp inp_rev : list Q) : result (list Q) :=
  match count with
  | O => Ok inp_rev
  | S count =>
      match inp with
      | [] => Raise IndexError
      | _ :: _ =>
          reverse_loop count (removelast inp) (inp_rev ++ [last inp 0%Q])
      end
  end.

(** Line 187: [int(x[2:], 16)] for every cell, in order. *)
Fixpoint read_cells (packed_data : list string) : result (list Z) :=
  match packed_data with
  | [] => Ok []
  | x :: rest =>
      match Py.int16 (Python.drop 2 x) with
      | None => Raise ValueError
      | Some n => ns <- read_cells rest ;; Ok (n :: ns)
      end
  end.

(** Lines 177-189.  The reversed buffer has the size of [ishape], so the
    reshape of line 184 cannot fail; the conversion of that line leaves an
    array of float32 values as it is. *)
Definition npy_to_rtlsim_input (input_file : string) (input_dtype : DataType.t)
    (pad_to_nbits : Z) : result (list Z) :=
  inp <- np_load input_file ;;
  let ishape := shape inp in
  let inp := flat inp in
  inp_rev <- reverse_loop (List.length inp) inp [] ;;
  let inp_rev := mk_ndarray ishape inp_rev in
  packed_data <- pack_innermost_dim_as_hex_string float_pattern inp_rev
                   input_dtype pad_to_nbits ;;
  let packed_data := flat packed_data in
  packed_data <- read_cells packed_data ;;
  Ok (rev packed_data).

(** Lines 198-202.  [output] holds Python integers.  The list the unpacker
    shortens is the new one of line 198, so what is left of it is dropped.
    The function returns nothing; the model returns the arguments of the
    [np.save] it ends with. *)
Definition rtlsim_output_to_npy (output : list Z) (path : string)
    (dtype : DataType.t) (shp : list nat) (packedBits targetBits : nat)
    : result (string * ndarray Z) :=
  let output := map Python.hex output in
  out_array <- fst (unpack_innermost_dim_from_hex_string output dtype shp
                      packedBits targetBits true) ;;
  Ok (path, out_array).

(** Lines 132-136 of [numpy_to_hls_code], the branch of a set
    [pack_innermost_dim]: the array that is printed and the C++ type of
    its cells.  [ndarray.shape[-1]] raises on a shape without entries. *)
Definition hls_packed (a : ndarray Q) (dtype : DataType.t)
    : result (ndarray string * string) :=
  match shape a with
  | [] => Raise IndexError
  | _ :: _ =>
      let idimlen := last (shape a) 0%nat in
      let idimbits := (idimlen * DataType.bitwidth dtype)%nat in
      ndarray <- pack_innermost_dim_as_hex_string float_pattern a dtype
                   (Z.of_nat idimbits) ;;
      let hls_dtype := ("ap_uint<" ++ Python.decimal idimbits ++ ">")%string in
      Ok (ndarray, hls_dtype)
  end.

End Adapters.

(** * Proofs *)

(** ** Bit arrays as numbers *)

Section BitFacts.

Import BitArray.

Lemma uint_from (b : t) : forall acc,
  fold_left (fun acc (x : bool) => 2 * acc + (if x then 1 else 0)) b acc
  = acc * 2 ^ Z.of_nat (List.length b) + uint b.
Proof.
  unfold uint. induction b as [|x b IH]; intros acc.
  - simpl. lia.
  - cbn [fold_left List.length]. rewrite IH, (IH (2 * 0 + _)).
    rewrite Nat2Z.inj_succ, Z.pow_succ_r by lia. lia.
Qed.

Lemma uint_cons (x : bool) (b : t) :
  uint (x :: b) = (if x then 1 else 0) * 2 ^ Z.of_nat (List.length b) + uint b.
Proof.
  unfold uint at 1. cbn [fold_left]. rewrite uint_from. destruct x; lia.
Qed.

Lemma uint_range (b : t) : 0 <= uint b < 2 ^ Z.of_nat (List.length b).
Proof.
  induction b as [|x b IH].
  - cbn. lia.
  - rewrite uint_cons. cbn [List.length].
    rewrite Nat2Z.inj_succ, Z.pow_succ_r by lia. destruct x; lia.
Qed.

Lemma uint_app (a b : t) :
  uint (a ++ b) = uint a * 2 ^ Z.of_nat (List.length b) + uint b.
Proof.
  induction a as [|x a IH].
  - cbn [app]. change (uint []) with 0. lia.
  - cbn [app]. rewrite !uint_cons, IH, length_app, Nat2Z.inj_add, Z.pow_add_r by lia.
    lia.
Qed.

Lemma uint_zeros (n : nat) : uint (zeros n) = 0.
Proof.
  induction n as [|n IH]; [reflexivity|].
  unfold zeros in *. cbn [repeat]. rewrite uint_cons, IH. lia.
Qed.

Lemma length_of_Z (w : nat) (z : Z) : List.length (of_Z w z) = w.
Proof. induction w; cbn; congruence. Qed.

Lemma uint_of_Z (w : nat) (z : Z) : uint (of_Z w z) = z mod 2 ^ Z.of_nat w.
Proof.
  induction w as [|w IH].
  - cbn. now rewrite Z.mod_1_r.
  - cbn [of_Z]. rewrite uint_cons, IH, length_of_Z.
    rewrite Nat2Z.inj_succ, Z.pow_succ_r by lia.
    assert (Hb : (if Z.testbit z (Z.of_nat w) then 1 else 0)
                 = (z / 2 ^ Z.of_nat w) mod 2).
    { rewrite <- Z.testbit_spec' by lia. now destruct (Z.testbit _ _). }
    rewrite Hb. set (p := 2 ^ Z.of_nat w).
    assert (0 < p) by (apply Z.pow_pos_nonneg; lia).
    rewrite (Z.mul_comm 2 p), Z.rem_mul_r by lia. lia.
Qed.

Lemma uint_pos_digits (p : positive) : uint (Py.pos_digits p) = Z.pos p.
Proof.
  induction p as [p IH|p IH|]; cbn [Py.pos_digits]; [| |reflexivity];
    rewrite uint_app, IH; cbn; lia.
Qed.

Lemma uint_bin_digits (n : Z) : 0 <= n -> uint (Py.bin_digits n) = n.
Proof.
  destruct n as [|p|p]; intros Hn; [reflexivity| |lia].
  apply uint_pos_digits.
Qed.

Lemma uint_zfill (width : nat) (digits : list bool) :
  uint (Py.zfill width digits) = uint digits.
Proof.
  unfold Py.zfill. rewrite uint_app. fold (zeros (width - List.length digits)).
  rewrite uint_zeros. lia.
Qed.

Lemma length_zfill (width : nat) (digits : list bool) :
  List.length (Py.zfill width digits) = Nat.max width (List.length digits).
Proof. unfold Py.zfill. rewrite length_app, repeat_length. lia. Qed.

(** The slice of the reversed list that the decoder reads, turned back. *)
Lemma slice_of_rev (hi mid lo : t) :
  rev (Py.slice (rev (hi ++ mid ++ lo)) (List.length lo)
         (List.length lo + List.length mid)) = mid.
Proof.
  unfold Py.slice. rewrite !rev_app_distr, <- app_assoc.
  rewrite app_assoc, firstn_app.
  rewrite firstn_all2 by (rewrite length_app, !length_rev; lia).
  replace (List.length lo + List.length mid
           - List.length (rev lo ++ rev mid))%nat with O
    by (rewrite length_app, !length_rev; lia).
  cbn [firstn]. rewrite app_nil_r, skipn_app.
  rewrite skipn_all2 by (rewrite length_rev; lia).
  replace (List.length lo - List.length (rev lo))%nat with O
    by (rewrite length_rev; lia).
  cbn [skipn app]. apply rev_involutive.
Qed.

Lemma split_three (b : t) (l w : nat) :
  (l + w <= List.length b)%nat ->
  exists hi mid lo, b = hi ++ mid ++ lo
    /\ List.length mid = w /\ List.length lo = l.
Proof.
  intros H. set (k := (List.length b - (l + w))%nat).
  exists (firstn k b), (firstn w (skipn k b)), (skipn w (skipn k b)).
  rewrite !firstn_skipn. repeat split.
  - rewrite length_firstn, length_skipn. lia.
  - rewrite !length_skipn. lia.
Qed.

Lemma slice_value (b : t) (l w : nat) :
  (l + w <= List.length b)%nat ->
  let elem := rev (Py.slice (rev b) l (l + w)) in
  List.length elem = w
  /\ uint elem = (uint b / 2 ^ Z.of_nat l) mod 2 ^ Z.of_nat w.
Proof.
  intros H. destruct (split_three b l w H) as (hi & mid & lo & -> & Hm & Hl).
  cbv zeta. rewrite <- Hm, <- Hl, slice_of_rev. split; [reflexivity|].
  rewrite !uint_app, length_app, Nat2Z.inj_add, Z.pow_add_r by lia.
  pose proof (uint_range mid). pose proof (uint_range lo).
  set (pm := 2 ^ Z.of_nat (List.length mid)) in *.
  set (pl := 2 ^ Z.of_nat (List.length lo)) in *.
  replace (uint hi * (pm * pl) + (uint mid * pl + uint lo))
    with ((uint hi * pm + uint mid) * pl + uint lo) by lia.
  rewrite Z.div_add_l by lia. rewrite (Z.div_small (uint lo)) by lia.
  rewrite Z.add_0_r, Z.add_comm, Z.mod_add by lia. symmetry. apply Z.mod_small. lia.
Qed.

End BitFacts.

(** ** The chunks of a word *)

Lemma chunks_from (b : BitArray.t) (targetBits : nat) :
  (0 < targetBits)%nat ->
  forall count start ar_list,
  ((start + count) * targetBits <= List.length b)%nat ->
  chunks (rev b) targetBits (seq start count) ar_list
  = Ok (ar_list ++ map (field_at (BitArray.uint b) targetBits) (seq start count)).
Proof.
  intros Hpos. induction count as [|count IH]; intros start ar_list Hlen.
  - cbn. now rewrite app_nil_r.
  - cbn [seq chunks map].
    replace ((start + 1) * targetBits)%nat
      with (start * targetBits + targetBits)%nat by lia.
    destruct (slice_value b (start * targetBits) targetBits) as [Hl Hv]; [nia|].
    cbv zeta in Hl, Hv.
    destruct (rev (Py.slice (rev b) _ _)) as [|x elem] eqn:E.
    + cbn in Hl. lia.
    + rewrite IH by lia. rewrite Hv, <- app_assoc. reflexivity.
Qed.

Lemma chunks_value (b : BitArray.t) (targetBits count : nat) :
  (0 < targetBits)%nat ->
  (count * targetBits <= List.length b)%nat ->
  chunks (rev b) targetBits (seq 0 count) []
  = Ok (fields_of (BitArray.uint b) targetBits count).
Proof. intros Hpos Hlen. now rewrite chunks_from. Qed.

Lemma chunks_zero_width (bits : list bool) (count : nat) :
  chunks bits 0 (seq 0 count) []
  = match count with O => Ok [] | S _ => Raise ValueError end.
Proof.
  destruct count as [|count]; [reflexivity|].
  cbn [seq chunks]. rewrite Nat.mul_0_r. reflexivity.
Qed.

(** ** Hex strings *)

Lemma lower_hex_facts (c : ascii) :
  Py.is_lower_hex c = true ->
  Py.is_space c = false /\ Ascii.eqb c "_" = false /\ Ascii.eqb c "x" = false
  /\ Ascii.eqb c "X" = false /\ Ascii.eqb c "+" = false
  /\ Ascii.eqb c "-" = false /\ exists d, Py.hex_value c = Some d.
Proof.
  destruct c as [[] [] [] [] [] [] [] []]; intros H; try discriminate H;
    repeat split; eexists; reflexivity.
Qed.

Lemma hex_digit_facts (b3 b2 b1 b0 : bool) :
  Py.is_lower_hex (BitArray.hex_digit b3 b2 b1 b0) = true
  /\ Py.hex_value (BitArray.hex_digit b3 b2 b1 b0)
     = Some (BitArray.uint [b3; b2; b1; b0]).
Proof. destruct b3, b2, b1, b0; split; reflexivity. Qed.

Lemma split_without_sep (sep : ascii) (s : string) :
  all_chars (fun c => negb (Ascii.eqb c sep)) s = true ->
  Py.split sep s = [s].
Proof.
  induction s as [|c s IH]; intros H; [reflexivity|].
  cbn in H. apply andb_prop in H. destruct H as [Hc Hs].
  cbn [Py.split]. apply negb_true_iff in Hc. rewrite Hc, (IH Hs). reflexivity.
Qed.

(** [hex] of a bit list whose length is a multiple of four. *)
Lemma hex_nibbles (k : nat) : forall b : BitArray.t,
  List.length b = (4 * k)%nat ->
  exists s, BitArray.hex b = Ok s
    /\ String.length s = k
    /\ all_chars Py.is_lower_hex s = true
    /\ forall seen acc,
       Py.scan16 s false seen acc
       = if seen || negb (k =? 0)%nat
         then Some (acc * 2 ^ Z.of_nat (4 * k) + BitArray.uint b) else None.
Proof.
  induction k as [|k IH]; intros b Hb.
  - destruct b; [|discriminate Hb]. exists EmptyString. repeat split.
    intros seen acc. cbn. destruct seen; cbn; [f_equal; lia|reflexivity].
  - destruct b as [|b3 [|b2 [|b1 [|b0 rest]]]]; try (cbn in Hb; lia).
    destruct (IH rest) as (s & Hs & Hl & Hc & Hv); [cbn in Hb; lia|].
    exists (String (BitArray.hex_digit b3 b2 b1 b0) s).
    destruct (hex_digit_facts b3 b2 b1 b0) as [Hd Hx].
    destruct (lower_hex_facts _ Hd) as (_ & Hu & _).
    repeat split.
    + cbn [BitArray.hex]. rewrite Hs. reflexivity.
    + cbn. congruence.
    + cbn [all_chars]. now rewrite Hd, Hc.
    + intros seen acc. cbn [Py.scan16]. rewrite Hu, Hx, Hv.
      rewrite orb_true_r. cbn [orb negb Nat.eqb].
      change (b3 :: b2 :: b1 :: b0 :: rest) with ([b3; b2; b1; b0] ++ rest).
      rewrite uint_app. f_equal.
      replace (List.length rest) with (4 * k)%nat by (cbn in Hb; lia).
      replace (Z.of_nat (4 * S k)) with (4 + Z.of_nat (4 * k)) by lia.
      rewrite Z.pow_add_r by lia. change (2 ^ 4) with 16. ring.
Qed.

Lemma hex_ragged (b : BitArray.t) :
  (List.length b mod 4 <> 0)%nat -> BitArray.hex b = Raise InterpretError.
Proof.
  remember (List.length b) as n eqn:Hn. revert b Hn.
  induction n as [n IH] using lt_wf_ind. intros b Hn Hm.
  destruct b as [|b3 [|b2 [|b1 [|b0 rest]]]]; try reflexivity.
  - subst n. cbn in Hm. congruence.
  - cbn [BitArray.hex]. rewrite (IH (List.length rest)); [reflexivity| |reflexivity|].
    + subst n. cbn. lia.
    + subst n. cbn [List.length] in Hm.
      replace (S (S (S (S (List.length rest))))) with (List.length rest + 1 * 4)%nat in Hm by lia.
      now rewrite Nat.Div0.mod_add in Hm.
Qed.

(** Reading a non-empty string of lowercase hex digits back. *)
Lemma int16_lower_hex (s : string) :
  all_chars Py.is_lower_hex s = true ->
  s <> EmptyString ->
  Py.int16 s = Py.scan16 s false false 0.
Proof.
  intros Hs Hne. destruct s as [|c s]; [congruence|].
  cbn in Hs. apply andb_prop in Hs. destruct Hs as [Hc Hs].
  destruct (lower_hex_facts c Hc) as (Hsp & Hus & Hx & HX & Hplus & Hminus & _).
  unfold Py.int16. cbn [Py.lstrip]. rewrite Hsp, Hplus, Hminus.
  unfold Py.unsigned16.
  destruct s as [|p s].
  - now rewrite Hus.
  - cbn in Hs. apply andb_prop in Hs. destruct Hs as [Hp Hs].
    destruct (lower_hex_facts p Hp) as (_ & _ & Hpx & HpX & _).
    rewrite Hpx, HpX, andb_false_r. now rewrite Hus.
Qed.

Lemma split_word (digits : string) :
  all_chars Py.is_lower_hex digits = true ->
  Py.split "x" (String "0" (String "x" digits)) = ["0"%string; digits].
Proof.
  intros H. cbn [Py.split]. change (Ascii.eqb "0" "x") with false.
  change (Ascii.eqb "x" "x") with true. cbv iota. rewrite split_without_sep; [reflexivity|].
  induction digits as [|c s IH]; [reflexivity|].
  cbn in H |- *. apply andb_prop in H. destruct H as [Hc Hs].
  destruct (lower_hex_facts c Hc) as (_ & _ & Hx & _). now rewrite Hx, IH.
Qed.

(** ** Decoding one word *)

Lemma raw_values_fields (inner packedBits targetBits : nat) (w : string) (n : Z) :
  parse_word w = Ok n -> 0 <= n ->
  (0 < targetBits)%nat ->
  (inner * targetBits <= packedBits)%nat ->
  raw_values inner packedBits targetBits w = Ok (fields_of n targetBits inner).
Proof.
  intros Hp Hn Htb Hlen. unfold raw_values. rewrite Hp. cbn [bind].
  destruct (Z.ltb_spec n 0) as [|_]; [lia|].
  rewrite chunks_value.
  - now rewrite uint_zfill, uint_bin_digits.
  - assumption.
  - rewrite length_zfill. lia.
Qed.

Lemma raw_values_zero_width (inner packedBits : nat) (w : string) (n : Z) :
  parse_word w = Ok n -> 0 <= n ->
  raw_values inner packedBits 0 w
  = match inner with O => Ok [] | S _ => Raise ValueError end.
Proof.
  intros Hp Hn. unfold raw_values. rewrite Hp. cbn [bind].
  destruct (Z.ltb_spec n 0) as [|_]; [lia|]. apply chunks_zero_width.
Qed.

Lemma parse_rendered (digits : string) (v : Z) :
  all_chars Py.is_lower_hex digits = true ->
  Py.scan16 digits false false 0 = Some v ->
  parse_word (String "0" (String "x" digits)) = Ok v.
Proof.
  intros Hd Hv. unfold parse_word. rewrite split_word by assumption.
  cbn [nth_error]. destruct digits as [|c s]; [discriminate Hv|].
  rewrite int16_lower_hex, Hv by (assumption || discriminate). reflexivity.
Qed.

(** ** Fields packed side by side *)

Lemma field_at_0 (n : Z) (w : nat) : field_at n w 0 = n mod 2 ^ Z.of_nat w.
Proof. unfold field_at. cbn. now rewrite Z.div_1_r. Qed.

Lemma field_at_push (n f : Z) (w i : nat) :
  0 <= f < 2 ^ Z.of_nat w ->
  field_at (n * 2 ^ Z.of_nat w + f) w (S i) = field_at n w i.
Proof.
  intros Hf. unfold field_at.
  assert (Hp : 0 < 2 ^ Z.of_nat w) by (apply Z.pow_pos_nonneg; lia).
  replace (Z.of_nat (S i * w)) with (Z.of_nat w + Z.of_nat (i * w)) by lia.
  rewrite Z.pow_add_r, <- Z.div_div by lia.
  rewrite Z.div_add_l, (Z.div_small f) by lia. now rewrite Z.add_0_r.
Qed.

Lemma fields_of_push (n f : Z) (w count : nat) :
  0 <= f < 2 ^ Z.of_nat w ->
  fields_of (n * 2 ^ Z.of_nat w + f) w (S count) = f :: fields_of n w count.
Proof.
  intros Hf. unfold fields_of. cbn [seq map]. rewrite field_at_0. f_equal.
  - rewrite Z.add_comm, Z.mod_add by lia. apply Z.mod_small, Hf.
  - rewrite <- seq_shift, map_map. apply map_ext. intros i.
    now apply field_at_push.
Qed.

(** The number a row of fields makes, first field most significant. *)
Lemma uint_concat_snoc (w : nat) (zs : list Z) (z : Z) :
  BitArray.uint (List.concat (map (BitArray.of_Z w) (zs ++ [z])))
  = BitArray.uint (List.concat (map (BitArray.of_Z w) zs)) * 2 ^ Z.of_nat w
    + z mod 2 ^ Z.of_nat w.
Proof.
  rewrite map_app, concat_app. cbn [map List.concat]. rewrite app_nil_r.
  now rewrite uint_app, length_of_Z, uint_of_Z.
Qed.

Lemma length_concat_fields (w : nat) (zs : list Z) :
  List.length (List.concat (map (BitArray.of_Z w) zs)) = (List.length zs * w)%nat.
Proof.
  induction zs as [|z zs IH]; [reflexivity|].
  cbn [map List.concat List.length]. rewrite length_app, length_of_Z, IH. lia.
Qed.

Lemma fields_of_concat (w : nat) (zs : list Z) :
  fields_of (BitArray.uint (List.concat (map (BitArray.of_Z w) zs))) w
    (List.length zs)
  = rev (map (fun z => z mod 2 ^ Z.of_nat w) zs).
Proof.
  induction zs as [|z zs IH] using rev_ind; [reflexivity|].
  rewrite uint_concat_snoc, length_app, Nat.add_comm. cbn [List.length Nat.add].
  rewrite fields_of_push, IH.
  - now rewrite map_app, rev_app_distr.
  - apply Z.mod_pos_bound, Z.pow_pos_nonneg; lia.
Qed.

(** ** Legal samples *)

Lemma integral_sample (x : Q) :
  Py.is_integer x = true -> x == inject_Z (Py.int_of_float x).
Proof.
  unfold Py.is_integer, Py.int_of_float. intros H. apply Z.eqb_eq in H.
  destruct x as [n d]. cbn in *. unfold Qeq. cbn.
  pose proof (Z.quot_rem' n (Z.pos d)). lia.
Qed.

Lemma int_of_inject (x : Q) (z : Z) : x == inject_Z z -> Py.int_of_float x = z.
Proof.
  unfold Qeq, Py.int_of_float. destruct x as [n d]. cbn. intros H.
  rewrite Z.mul_1_r in H. subst n. apply Z.quot_mul. lia.
Qed.

Lemma sample_bounds (x : Q) (lo hi : Z) :
  Qle_bool (inject_Z lo) x = true -> Qle_bool x (inject_Z hi) = true ->
  Py.is_integer x = true -> lo <= Py.int_of_float x <= hi.
Proof.
  intros Hlo Hhi Hi. apply Qle_bool_iff in Hlo, Hhi.
  pose proof (integral_sample x Hi) as He. rewrite He in Hlo, Hhi.
  rewrite <- Zle_Qle in Hlo, Hhi. lia.
Qed.

Lemma allowed_UINT (w : positive) (x : Q) :
  DataType.allowed (DataType.UINT w) x = true ->
  0 <= Py.int_of_float x < 2 ^ Z.pos w /\ x == inject_Z (Py.int_of_float x).
Proof.
  cbn. intros H. apply andb_prop in H. destruct H as [H Hi].
  apply andb_prop in H. destruct H as [Hlo Hhi].
  pose proof (sample_bounds x 0 _ Hlo Hhi Hi). split; [lia|].
  now apply integral_sample.
Qed.

Lemma allowed_INT (w : positive) (x : Q) :
  DataType.allowed (DataType.INT w) x = true ->
  - 2 ^ (Z.pos w - 1) <= Py.int_of_float x < 2 ^ (Z.pos w - 1)
  /\ x == inject_Z (Py.int_of_float x).
Proof.
  cbn. intros H. apply andb_prop in H. destruct H as [H Hi].
  apply andb_prop in H. destruct H as [Hlo Hhi].
  pose proof (sample_bounds x _ _ Hlo Hhi Hi). split; [lia|].
  now apply integral_sample.
Qed.

Lemma allowed_BINARY (x : Q) :
  DataType.allowed DataType.BINARY x = true ->
  0 <= Py.int_of_float x < 2 /\ x == inject_Z (Py.int_of_float x).
Proof.
  cbn. intros H. apply orb_prop in H.
  destruct H as [H|H]; apply Qeq_bool_iff in H.
  - change (0 # 1)%Q with (inject_Z 0) in H. rewrite (int_of_inject x 0 H).
    split; [lia|exact H].
  - change (1 # 1)%Q with (inject_Z 1) in H. rewrite (int_of_inject x 1 H).
    split; [lia|exact H].
Qed.

Lemma allowed_BIPOLAR (x : Q) :
  DataType.allowed DataType.BIPOLAR x = true ->
  DataType.allowed DataType.BINARY (bipolar_to_binary x) = true.
Proof.
  cbn. intros H. apply orb_prop in H. apply orb_true_iff.
  unfold bipolar_to_binary.
  destruct H as [H|H]; apply Qeq_bool_iff in H; [left|right];
    apply Qeq_bool_iff; rewrite H; reflexivity.
Qed.

(** ** The encoder on legal rows *)

Section Encoder.

Variable float_pattern : Q -> Z.

Lemma field_of_legal (dtype : DataType.t) (x : Q) :
  dtype <> DataType.BIPOLAR ->
  DataType.allowed dtype x = true ->
  field float_pattern dtype x
  = Ok (BitArray.of_Z (DataType.bitwidth dtype) (stored_int float_pattern dtype x)).
Proof.
  intros Hd Ha. unfold field, BitArray.of_uint, BitArray.of_int, BitArray.of_float.
  destruct dtype as [| |w|w|]; [congruence| | | |reflexivity]; cbn -[Z.pow].
  - destruct (allowed_BINARY x Ha) as [[H0 H1] _].
    destruct (Z.leb_spec 0 (Py.int_of_float x)); [|lia].
    destruct (Z.ltb_spec (Py.int_of_float x) (2 ^ 1)); [reflexivity|cbn in *; lia].
  - destruct (allowed_UINT w x Ha) as [[H0 H1] _].
    rewrite positive_nat_Z.
    destruct (Z.ltb_spec 0 (Z.pos w)); [|lia].
    destruct (Z.leb_spec 0 (Py.int_of_float x)); [|lia].
    destruct (Z.ltb_spec (Py.int_of_float x) (2 ^ Z.pos w)); [reflexivity|lia].
  - destruct (allowed_INT w x Ha) as [[H0 H1] _].
    rewrite positive_nat_Z.
    destruct (Z.ltb_spec 0 (Z.pos w)); [|lia].
    destruct (Z.leb_spec (- 2 ^ (Z.pos w - 1)) (Py.int_of_float x)); [|lia].
    destruct (Z.ltb_spec (Py.int_of_float x) (2 ^ (Z.pos w - 1))); [reflexivity|lia].
Qed.

Lemma append_fields_legal (dtype : DataType.t) (v : list Q) :
  dtype <> DataType.BIPOLAR -> legal dtype v ->
  forall lineval,
  append_fields float_pattern dtype v lineval
  = Ok (lineval ++ List.concat (map (BitArray.of_Z (DataType.bitwidth dtype))
                                  (map (stored_int float_pattern dtype) v))).
Proof.
  intros Hd Hv. induction Hv as [|x v Hx Hv IH]; intros lineval.
  - cbn. now rewrite app_nil_r.
  - cbn [append_fields map List.concat]. rewrite Hx, field_of_legal by assumption.
    cbn [bind]. rewrite IH, <- app_assoc. reflexivity.
Qed.

End Encoder.

Lemma hex_inversion (b : BitArray.t) (s : string) :
  BitArray.hex b = Ok s ->
  List.length b = (4 * String.length s)%nat
  /\ all_chars Py.is_lower_hex s = true.
Proof.
  intros H. destruct (Nat.eq_dec (List.length b mod 4) 0) as [Hm|Hm].
  - destruct (hex_nibbles (List.length b / 4) b) as (s' & Hs' & Hl & Hc & _).
    { pose proof (Nat.div_mod_eq (List.length b) 4). lia. }
    rewrite Hs' in H. injection H as <-. split; [|assumption].
    pose proof (Nat.div_mod_eq (List.length b) 4). lia.
  - rewrite hex_ragged in H by assumption. discriminate H.
Qed.

Section EncoderOutcome.

Variable float_pattern : Q -> Z.

Lemma length_row_bits (dtype : DataType.t) (v : list Q) :
  Z.of_nat (List.length (row_bits float_pattern dtype v)) = natural_length v dtype.
Proof.
  unfold row_bits, natural_length. now rewrite length_concat_fields, length_map.
Qed.

Lemma floor_is_max (pad_to_nbits : Z) :
  (if pad_to_nbits <? 4 then 4 else pad_to_nbits) = padded_width pad_to_nbits.
Proof. unfold padded_width. destruct (Z.ltb_spec pad_to_nbits 4); lia. Qed.

(** On a legal row the loop cannot raise: what is left is the comparison
    of line 45 and the rendering of line 51. *)
Lemma array2hexstring_legal (v : list Q) (dtype : DataType.t)
    (pad_to_nbits : Z) (prefix : string) :
  legal dtype v ->
  array2hexstring float_pattern v dtype pad_to_nbits prefix
  = if padded_width pad_to_nbits >=? natural_length v dtype then
      digits <- BitArray.hex
                  (BitArray.zeros
                     (Z.to_nat (padded_width pad_to_nbits - natural_length v dtype))
                   ++ row_bits float_pattern dtype v) ;;
      Ok (prefix ++ digits)%string
    else Raise PackingOverflow.
Proof.
  intros Hv. unfold array2hexstring. rewrite floor_is_max.
  rewrite <- length_row_bits.
  assert (Hrow : forall d w, d <> DataType.BIPOLAR -> legal d w ->
            row_bits float_pattern dtype v = row_bits float_pattern d w ->
            append_fields float_pattern d w [] = Ok (row_bits float_pattern dtype v)).
  { intros d w Hd Hw ->. now rewrite append_fields_legal. }
  destruct dtype as [| |w|w|]; cbn [DataType.eqb];
    try (rewrite (Hrow _ v) by (congruence || assumption || reflexivity);
         reflexivity).
  rewrite (Hrow DataType.BINARY (map bipolar_to_binary v)); [reflexivity|congruence| |].
  - unfold legal in *. rewrite Forall_map.
    eapply Forall_impl; [|exact Hv]. intros x. apply allowed_BIPOLAR.
  - unfold row_bits. now rewrite !map_map.
Qed.

Lemma array2hexstring_overflows (v : list Q) (dtype : DataType.t)
    (pad_to_nbits : Z) (prefix : string) :
  legal dtype v ->
  padded_width pad_to_nbits < natural_length v dtype ->
  array2hexstring float_pattern v dtype pad_to_nbits prefix = Raise PackingOverflow.
Proof.
  intros Hv Hlt. rewrite array2hexstring_legal by assumption.
  destruct (Z.geb_spec (padded_width pad_to_nbits) (natural_length v dtype));
    [lia|reflexivity].
Qed.

(** An accepted row: the digits, and the number they read back as. *)
Lemma array2hexstring_accepts (v : list Q) (dtype : DataType.t)
    (pad_to_nbits : Z) :
  legal dtype v ->
  natural_length v dtype <= padded_width pad_to_nbits ->
  padded_width pad_to_nbits mod 4 = 0 ->
  exists digits,
    array2hexstring float_pattern v dtype pad_to_nbits "0x"
    = Ok (String "0" (String "x" digits))
    /\ parse_word (String "0" (String "x" digits))
       = Ok (BitArray.uint (row_bits float_pattern dtype v)).
Proof.
  intros Hv Hle Hm. rewrite array2hexstring_legal by assumption.
  destruct (Z.geb_spec (padded_width pad_to_nbits) (natural_length v dtype));
    [|lia].
  set (bits := BitArray.zeros _ ++ row_bits float_pattern dtype v).
  assert (Hlen : Z.of_nat (List.length bits) = padded_width pad_to_nbits).
  { unfold bits, BitArray.zeros.
    rewrite length_app, repeat_length, Nat2Z.inj_add, length_row_bits. lia. }
  assert (H4 : 4 <= padded_width pad_to_nbits) by (unfold padded_width; lia).
  destruct (hex_nibbles (Z.to_nat (padded_width pad_to_nbits / 4)) bits)
    as (digits & Hd & Hl & Hc & Hs).
  { pose proof (Z.div_mod (padded_width pad_to_nbits) 4). lia. }
  exists digits. rewrite Hd. cbn [bind]. split; [reflexivity|].
  apply parse_rendered; [assumption|]. rewrite Hs.
  assert (0 < padded_width pad_to_nbits / 4) by (apply Z.div_str_pos; lia).
  destruct (Nat.eqb_spec (Z.to_nat (padded_width pad_to_nbits / 4)) 0); [lia|].
  cbn [orb negb]. f_equal. unfold bits. rewrite uint_app, uint_zeros. lia.
Qed.

End EncoderOutcome.

(** ** The row encoder *)

(** C6.  A [pad_to_nbits] below 4 gives what 4 gives: the same string or
    the same exception, for every row, domain and prefix. *)
Theorem padding_floor (float_pattern : Q -> Z) (v : list Q)
    (dtype : DataType.t) (pad_to_nbits : Z) (prefix : string) :
  pad_to_nbits < 4 ->
  array2hexstring float_pattern v dtype pad_to_nbits prefix
  = array2hexstring float_pattern v dtype 4 prefix.
Proof.
  intros H. unfold array2hexstring.
  destruct (Z.ltb_spec pad_to_nbits 4) as [_|]; [reflexivity|lia].
Qed.

Lemma padding_floor_witness :
  -3 < 4
  /\ array2hexstring example_pattern [1 # 1; 0 # 1] DataType.BINARY (-3) "0x"
     = array2hexstring example_pattern [1 # 1; 0 # 1] DataType.BINARY 4 "0x".
Proof.
  split; [lia|]. apply (padding_floor example_pattern). lia.
Defined.

Lemma bipolar_bits (float_pattern : Q -> Z) (v : list Q) :
  legal DataType.BIPOLAR v ->
  row_bits float_pattern DataType.BIPOLAR v
  = map (fun x => Qeq_bool x (1 # 1)) v.
Proof.
  unfold row_bits. induction 1 as [|x v Hx Hv IH]; [reflexivity|].
  cbn [map List.concat]. rewrite IH.
  cbn in Hx. apply orb_prop in Hx.
  assert (Hb : bipolar_to_binary x
               == inject_Z (if Qeq_bool x (1 # 1) then 1 else 0)).
  { unfold bipolar_to_binary.
    destruct Hx as [Hx|Hx]; apply Qeq_bool_iff in Hx; rewrite Hx; reflexivity. }
  cbn [stored_int DataType.bitwidth]. rewrite (int_of_inject _ _ Hb).
  now destruct (Qeq_bool x (1 # 1)).
Qed.

(** C5.  A bipolar row is encoded as the binary row of its samples mapped
    through (x+1)/2; on a legal row that is one unsigned bit per sample, set
    for +1 and clear for -1.  The row -1, 1, 1, -1 padded to 4 gives 0x6. *)
Theorem bipolar_encoded_as_binary (float_pattern : Q -> Z) :
  (forall v pad_to_nbits prefix,
     array2hexstring float_pattern v DataType.BIPOLAR pad_to_nbits prefix
     = array2hexstring float_pattern (map bipolar_to_binary v)
         DataType.BINARY pad_to_nbits prefix)
  /\ (forall v,
        legal DataType.BIPOLAR v ->
        append_fields float_pattern DataType.BINARY (map bipolar_to_binary v) []
        = Ok (map (fun x => Qeq_bool x (1 # 1)) v))
  /\ array2hexstring float_pattern [-1 # 1; 1 # 1; 1 # 1; -1 # 1]
       DataType.BIPOLAR 4 "0x" = Ok "0x6"%string.
Proof.
  split; [|split].
  - intros v pad_to_nbits prefix. unfold array2hexstring.
    destruct (map bipolar_to_binary v); reflexivity.
  - intros v Hv. rewrite append_fields_legal.
    + rewrite <- (bipolar_bits float_pattern v Hv). unfold row_bits.
      now rewrite !map_map.
    + discriminate.
    + unfold legal in *. rewrite Forall_map.
      eapply Forall_impl; [|exact Hv]. intros x. apply allowed_BIPOLAR.
  - reflexivity.
Qed.

Lemma bipolar_encoded_as_binary_witness :
  append_fields example_pattern DataType.BINARY
    (map bipolar_to_binary [-1 # 1; 1 # 1; 1 # 1; -1 # 1]) []
  = Ok [false; true; true; false].
Proof.
  apply (proj1 (proj2 (bipolar_encoded_as_binary example_pattern))
           [-1 # 1; 1 # 1; 1 # 1; -1 # 1]).
  repeat constructor.
Defined.

(** C2, as the specification states it, fails: a row of two bits asked to
    fit in one bit is padded to four bits and encoded. *)
Lemma small_pad_is_raised_not_rejected :
  ~ (forall (float_pattern : Q -> Z) dtype v pad_to_nbits,
       legal dtype v ->
       pad_to_nbits < natural_length v dtype ->
       array2hexstring float_pattern v dtype pad_to_nbits "0x"
       = Raise PackingOverflow).
Proof.
  intros H.
  specialize (H example_pattern DataType.BINARY [1 # 1; 1 # 1] 1).
  assert (Hl : legal DataType.BINARY [1 # 1; 1 # 1]) by (repeat constructor).
  specialize (H Hl ltac:(reflexivity)). discriminate H.
Qed.

(** C2, amended.  On a legal row of float32 values the encoder raises the
    overflow exception, and returns nothing, whenever the width it pads to,
    max(padTo, 4), is smaller than the natural length. *)
Theorem overflow_below_natural_length (float_pattern : Q -> Z)
    (dtype : DataType.t) (v : list Q) (pad_to_nbits : Z) :
  legal dtype v ->
  float32_row v ->
  padded_width pad_to_nbits < natural_length v dtype ->
  array2hexstring float_pattern v dtype pad_to_nbits "0x"
  = Raise PackingOverflow.
Proof. intros Hv _ Hlt. now apply array2hexstring_overflows. Qed.

Lemma overflow_below_natural_length_witness :
  array2hexstring example_pattern [3 # 1; 0 # 1; 2 # 1] (DataType.UINT 2) 4 "0x"
  = Raise PackingOverflow.
Proof.
  apply (overflow_below_natural_length example_pattern).
  - repeat constructor.
  - repeat constructor.
  - reflexivity.
Defined.

(** C9, as stated, fails: the first example of the docstring has one digit. *)
Lemma hexstring_with_one_digit :
  ~ (forall (float_pattern : Q -> Z) dtype v pad_to_nbits s,
       legal dtype v ->
       array2hexstring float_pattern v dtype pad_to_nbits "0x" = Ok s ->
       even_hex_string s).
Proof.
  intros H.
  specialize (H example_pattern DataType.BINARY [1 # 1; 1 # 1; 1 # 1; 0 # 1] 4
                "0xe"%string).
  destruct H as (digits & Hs & _ & He).
  - repeat constructor.
  - reflexivity.
  - injection Hs as <-. discriminate He.
Qed.

(** What can be said of every string the encoder returns. *)
Lemma returned_string (float_pattern : Q -> Z) (dtype : DataType.t)
    (v : list Q) (pad_to_nbits : Z) (s : string) :
  array2hexstring float_pattern v dtype pad_to_nbits "0x" = Ok s ->
  exists digits,
    s = String "0" (String "x" digits)
    /\ all_chars Py.is_lower_hex digits = true
    /\ 4 * Z.of_nat (String.length digits) = padded_width pad_to_nbits.
Proof.
  unfold array2hexstring. rewrite floor_is_max.
  destruct (if DataType.eqb dtype DataType.BIPOLAR then _ else _) as [w d].
  destruct (append_fields float_pattern d w []) as [lineval|e];
    [cbn [bind]|discriminate].
  destruct (Z.geb_spec (padded_width pad_to_nbits)
              (Z.of_nat (List.length lineval))) as [Hge|]; [|discriminate].
  destruct (BitArray.hex _) as [digits|e] eqn:Hhex; [cbn [bind]|discriminate].
  intros [= <-]. exists digits. destruct (hex_inversion _ _ Hhex) as [Hl Hc].
  repeat split; [assumption|].
  unfold BitArray.zeros in Hl. rewrite length_app, repeat_length in Hl. lia.
Qed.

(** C9, amended.  A returned string is [0x] followed by lowercase hex
    digits, one for every four bits of the width max(padTo, 4); their
    number is even only when that width is a multiple of 8. *)
Theorem hexstring_format (float_pattern : Q -> Z) (dtype : DataType.t)
    (v : list Q) (pad_to_nbits : Z) (s : string) :
  array2hexstring float_pattern v dtype pad_to_nbits "0x" = Ok s ->
  exists digits,
    s = String "0" (String "x" digits)
    /\ all_chars Py.is_lower_hex digits = true
    /\ 4 * Z.of_nat (String.length digits) = padded_width pad_to_nbits.
Proof. apply returned_string. Qed.

Lemma hexstring_format_witness :
  exists digits,
    "0x0e"%string = String "0" (String "x" digits)
    /\ all_chars Py.is_lower_hex digits = true
    /\ 4 * Z.of_nat (String.length digits) = padded_width 8.
Proof.
  apply (hexstring_format example_pattern DataType.BINARY
           [1 # 1; 1 # 1; 1 # 1; 0 # 1] 8).
  reflexivity.
Defined.

(** ** The row decoder *)

Lemma bitwidth_positive (dtype : DataType.t) : (0 < DataType.bitwidth dtype)%nat.
Proof. destruct dtype; cbn; try lia; apply Pos2Nat.is_pos. Qed.

Lemma decode_word_fields (dtype : DataType.t) (inner packedBits targetBits : nat)
    (rtlsim : bool) (w : string) (n : Z) :
  parse_word w = Ok n -> 0 <= n ->
  (0 < targetBits)%nat ->
  (inner * targetBits <= packedBits)%nat ->
  decode_word dtype inner packedBits targetBits rtlsim w
  = Ok (oriented dtype rtlsim (fields_of n targetBits inner)).
Proof.
  intros Hp Hn Htb Hlen. unfold decode_word.
  now rewrite (raw_values_fields _ _ _ _ n).
Qed.

(** A one-dimensional shape: one word, one row. *)
Lemma unpack_one_row (w : string) (dtype : DataType.t) (n packedBits
    targetBits : nat) (rtlsim : bool) :
  unpack_innermost_dim_from_hex_string [w] dtype [n] packedBits targetBits rtlsim
  = match decode_word dtype n packedBits targetBits rtlsim w with
    | Ok ar_list => (Ok (mk_ndarray [n] ar_list), [])
    | Raise e => (Raise e, [])
    end.
Proof.
  unfold unpack_innermost_dim_from_hex_string. cbn.
  destruct (decode_word dtype n packedBits targetBits rtlsim w); [|reflexivity].
  cbn. now rewrite app_nil_r.
Qed.

(** ** Encoding, then decoding *)

Section RoundTrip.

Variable float_pattern : Q -> Z.

(** Decoding what the encoder wrote returns the unsigned number held by the
    field of each sample, in the order of the samples. *)
Lemma decode_encoded (dtype : DataType.t) (v : list Q) (pad_to_nbits : Z) :
  legal dtype v ->
  natural_length v dtype <= padded_width pad_to_nbits ->
  padded_width pad_to_nbits mod 4 = 0 ->
  exists s,
    array2hexstring float_pattern v dtype pad_to_nbits "0x" = Ok s
    /\ unpack_innermost_dim_from_hex_string [s] dtype [List.length v]
         (Z.to_nat (padded_width pad_to_nbits)) (DataType.bitwidth dtype) false
       = (Ok (mk_ndarray [List.length v]
                (map (field_value float_pattern dtype) v)), []).
Proof.
  intros Hv Hle Hm.
  destruct (array2hexstring_accepts float_pattern v dtype pad_to_nbits Hv Hle Hm)
    as (digits & Henc & Hparse).
  eexists. split; [exact Henc|]. rewrite unpack_one_row.
  rewrite (decode_word_fields _ _ _ _ _ _ _ Hparse).
  - unfold oriented, row_bits.
    replace (List.length v)
      with (List.length (map (stored_int float_pattern dtype) v))
      by apply length_map.
    rewrite fields_of_concat, rev_involutive, map_map, length_map. reflexivity.
  - apply uint_range.
  - apply bitwidth_positive.
  - unfold natural_length in Hle. lia.
Qed.

(** A sample that is not negative is the number its field holds. *)
Lemma field_value_nonnegative (dtype : DataType.t) (x : Q) :
  DataType.is_integer dtype = true ->
  DataType.allowed dtype x = true ->
  (0 <= x)%Q ->
  inject_Z (field_value float_pattern dtype x) == x.
Proof.
  intros Hi Ha Hx. unfold field_value.
  destruct dtype as [| |w|w|]; [| | | |discriminate Hi];
    cbn [stored_int DataType.bitwidth].
  - cbn in Ha. apply orb_prop in Ha. destruct Ha as [Ha|Ha];
      apply Qeq_bool_iff in Ha.
    + rewrite Ha in Hx. unfold Qle in Hx. cbn in Hx. lia.
    + assert (Hb : bipolar_to_binary x == inject_Z 1)
        by (unfold bipolar_to_binary; rewrite Ha; reflexivity).
      rewrite (int_of_inject _ _ Hb), Ha. reflexivity.
  - destruct (allowed_BINARY x Ha) as [Hr He].
    rewrite Z.mod_small by (cbn; lia). now symmetry.
  - destruct (allowed_UINT w x Ha) as [Hr He].
    rewrite positive_nat_Z, Z.mod_small by lia. now symmetry.
  - destruct (allowed_INT w x Ha) as [Hr He].
    rewrite He in Hx. change 0%Q with (inject_Z 0) in Hx.
    rewrite <- Zle_Qle in Hx.
    assert (2 ^ (Z.pos w - 1) <= 2 ^ Z.pos w)
      by (apply Z.pow_le_mono_r; lia).
    rewrite positive_nat_Z, Z.mod_small by lia. now symmetry.
Qed.

(** A negative sample of a signed domain comes back raised by 2^W. *)
Lemma field_value_negative (w : positive) (x : Q) :
  DataType.allowed (DataType.INT w) x = true ->
  (x < 0)%Q ->
  field_value float_pattern (DataType.INT w) x
  = Py.int_of_float x + 2 ^ Z.pos w.
Proof.
  intros Ha Hx. destruct (allowed_INT w x Ha) as [Hr He].
  rewrite He in Hx. change 0%Q with (inject_Z 0) in Hx.
  rewrite <- Zlt_Qlt in Hx.
  assert (2 ^ Z.pos w = 2 * 2 ^ (Z.pos w - 1)).
  { rewrite <- Z.pow_succ_r by lia. f_equal. lia. }
  unfold field_value. cbn [stored_int DataType.bitwidth].
  rewrite positive_nat_Z.
  rewrite <- (Z.mod_add _ 1) by lia. rewrite Z.mul_1_l.
  apply Z.mod_small. lia.
Qed.

End RoundTrip.

(** C1, as stated, fails.  The sample -1 of the 2-bit signed domain is
    written as the bits 11 and read back as 3; and a width that is not a
    multiple of four is refused by the hex rendering although it covers
    the row. *)
Lemma roundtrip_loses_the_sign :
  ~ (forall (float_pattern : Q -> Z) dtype v pad_to_nbits,
       legal dtype v ->
       natural_length v dtype <= pad_to_nbits ->
       round_trips float_pattern dtype v pad_to_nbits)
  /\ array2hexstring example_pattern [1 # 1; 0 # 1; 1 # 1; 0 # 1; 1 # 1]
       DataType.BINARY 5 "0x" = Raise InterpretError.
Proof.
  split; [|reflexivity]. intros H.
  destruct (H example_pattern DataType.INT2 [-1 # 1] 4) as (s & zs & Hs & Hz & Hq).
  - repeat constructor.
  - vm_compute. discriminate.
  - cbn in Hs. injection Hs as <-. cbn in Hz. injection Hz as <-.
    inversion Hq as [|? ? ? ? Hx _]. discriminate Hx.
Qed.

(** C1, amended.  For every integer domain (bipolar, binary, unsigned,
    signed), every legal row of float32 values without a negative sample
    and every padTo that covers the natural length and pads to a multiple
    of four bits, the row is encoded and decoding with [rtlsim] off returns
    it element for element.  The samples being float32 values, line 26
    stores them as they are, and so does line 115 the integers returned,
    which are the samples. *)
Theorem roundtrip_of_nonnegative_rows (float_pattern : Q -> Z)
    (dtype : DataType.t) (v : list Q) (pad_to_nbits : Z) :
  DataType.is_integer dtype = true ->
  legal dtype v ->
  float32_row v ->
  Forall (fun x => (0 <= x)%Q) v ->
  natural_length v dtype <= pad_to_nbits ->
  padded_width pad_to_nbits mod 4 = 0 ->
  round_trips float_pattern dtype v pad_to_nbits.
Proof.
  intros Hi Hv _ Hpos Hle Hm.
  destruct (decode_encoded float_pattern dtype v pad_to_nbits Hv) as (s & Hs & Hd);
    [unfold padded_width; lia|assumption|].
  exists s, (map (field_value float_pattern dtype) v).
  split; [assumption|]. split; [assumption|].
  clear Hs Hd Hle. induction Hv as [|x v Hx Hv IH]; [constructor|].
  inversion Hpos as [|? ? Hx0 Hpos']. subst.
  cbn [map]. constructor; [|now apply IH].
  now apply field_value_nonnegative.
Qed.

Lemma roundtrip_of_nonnegative_rows_witness :
  round_trips example_pattern (DataType.INT 4) [5 # 1; 0 # 1; 7 # 1] 16.
Proof.
  apply roundtrip_of_nonnegative_rows.
  - reflexivity.
  - repeat constructor.
  - repeat constructor.
  - repeat constructor; unfold Qle; cbn; lia.
  - vm_compute. discriminate.
  - reflexivity.
Defined.

(** ** Words as they arrive *)

Lemma lower_hex_value (c : ascii) :
  Py.is_lower_hex c = true ->
  exists d, Py.hex_value c = Some d /\ 0 <= d < 16.
Proof.
  destruct c as [[] [] [] [] [] [] [] []]; intros H; try discriminate H;
    eexists; (split; [reflexivity|cbn; lia]).
Qed.

Lemma scan16_lower_hex (s : string) :
  all_chars Py.is_lower_hex s = true ->
  forall seen acc,
  seen = true \/ s <> EmptyString ->
  exists v, Py.scan16 s false seen acc = Some v
    /\ acc * 16 ^ Z.of_nat (String.length s) <= v
       < (acc + 1) * 16 ^ Z.of_nat (String.length s).
Proof.
  induction s as [|c s IH]; intros Hs seen acc Hne.
  - destruct Hne as [->|Hne]; [|congruence]. exists acc. cbn. split; [reflexivity|lia].
  - cbn in Hs. apply andb_prop in Hs. destruct Hs as [Hc Hs].
    destruct (lower_hex_facts c Hc) as (_ & Hus & _).
    destruct (lower_hex_value c Hc) as (d & Hd & Hr).
    cbn [Py.scan16]. rewrite Hus, Hd.
    destruct (IH Hs true (16 * acc + d)) as (v & Hv & Hb); [now left|].
    exists v. split; [assumption|].
    cbn [String.length]. rewrite Nat2Z.inj_succ, Z.pow_succ_r by lia.
    assert (0 < 16 ^ Z.of_nat (String.length s)) by (apply Z.pow_pos_nonneg; lia).
    nia.
Qed.

Lemma parse_lower_hex (digits : string) :
  all_chars Py.is_lower_hex digits = true ->
  digits <> EmptyString ->
  exists n, parse_word (String "0" (String "x" digits)) = Ok n
    /\ 0 <= n < 2 ^ Z.of_nat (4 * String.length digits).
Proof.
  intros Hd Hne.
  destruct (scan16_lower_hex digits Hd false 0) as (v & Hv & Hb); [now right|].
  exists v. split; [now apply parse_rendered|].
  replace (Z.of_nat (4 * String.length digits))
    with (4 * Z.of_nat (String.length digits)) by lia.
  rewrite Z.pow_mul_r by lia. change (2 ^ 4) with 16. lia.
Qed.

(** C3, as stated, fails: the one-digit word 0x1 announces four bits, is
    decoded against eight, and gives the two fields 0 and 1. *)
Lemma short_word_is_decoded :
  ~ (forall dtype inner packedBits targetBits rtlsim digits,
       all_chars Py.is_lower_hex digits = true ->
       digits <> EmptyString ->
       (4 * String.length digits < packedBits)%nat ->
       exists e,
         decode_word dtype inner packedBits targetBits rtlsim
           (String "0" (String "x" digits)) = Raise e).
Proof.
  intros H.
  destruct (H DataType.BINARY 2%nat 8%nat 4%nat false "1"%string) as [e He];
    [reflexivity|discriminate|cbn; lia|discriminate He].
Qed.

(** C3, amended.  A word with fewer hex digits than [packedBits] asks for is
    not refused: line 91 fills the missing high bits with zeros, and the
    word is decoded to the fields of its number. *)
Theorem short_word_is_zero_filled (dtype : DataType.t) (inner packedBits
    targetBits : nat) (rtlsim : bool) (digits : string) :
  all_chars Py.is_lower_hex digits = true ->
  digits <> EmptyString ->
  (4 * String.length digits < packedBits)%nat ->
  (0 < targetBits)%nat ->
  (inner * targetBits <= packedBits)%nat ->
  exists n,
    parse_word (String "0" (String "x" digits)) = Ok n
    /\ 0 <= n < 2 ^ Z.of_nat (4 * String.length digits)
    /\ decode_word dtype inner packedBits targetBits rtlsim
         (String "0" (String "x" digits))
       = Ok (oriented dtype rtlsim (fields_of n targetBits inner)).
Proof.
  intros Hd Hne _ Htb Hlen.
  destruct (parse_lower_hex digits Hd Hne) as (n & Hn & Hr).
  exists n. repeat split; try lia; [assumption|].
  apply decode_word_fields; (assumption || lia).
Qed.

Lemma short_word_is_zero_filled_witness :
  exists n,
    parse_word "0x1" = Ok n
    /\ 0 <= n < 2 ^ Z.of_nat (4 * 1)
    /\ decode_word DataType.BINARY 2 8 4 false "0x1"
       = Ok (oriented DataType.BINARY false (fields_of n 4 2)).
Proof.
  apply (short_word_is_zero_filled DataType.BINARY 2 8 4 false "1").
  - reflexivity.
  - discriminate.
  - cbn. lia.
  - lia.
  - cbn. lia.
Defined.

(** ** The sign correction as two's complement *)

Lemma land_pow2 (v k : Z) :
  0 <= k -> Z.land v (2 ^ k) = if Z.testbit v k then 2 ^ k else 0.
Proof.
  intros Hk. apply Z.bits_inj'. intros n Hn.
  rewrite Z.land_spec, Z.pow2_bits_eqb by assumption.
  destruct (Z.eqb_spec k n) as [<-|Hne].
  - destruct (Z.testbit v k) eqn:E; cbn.
    + rewrite Z.pow2_bits_eqb by assumption. symmetry. apply Z.eqb_refl.
    + now rewrite Z.bits_0.
  - rewrite andb_false_r. destruct (Z.testbit v k).
    + rewrite Z.pow2_bits_eqb by assumption. symmetry. now apply Z.eqb_neq.
    + now rewrite Z.bits_0.
Qed.

Lemma land_lnot (v m : Z) : Z.land v (Z.lnot m) = v - Z.land v m.
Proof.
  rewrite <- Z.ldiff_land.
  assert (H : Z.ldiff v m + Z.land v m = v).
  { rewrite <- Z.add_lor_land, Z.lor_ldiff_and.
    rewrite (Z.land_comm v m), Z.land_assoc, Z.land_ldiff, Z.land_0_l. lia. }
  lia.
Qed.

(** On a field of W = k+1 bits the correction of line 112 reads the field
    as a two's-complement number. *)
Lemma sign_correction_value (k v : Z) :
  0 <= k -> 0 <= v < 2 ^ (k + 1) ->
  - Z.land v (2 ^ k) + Z.land v (Z.lnot (2 ^ k))
  = if v <? 2 ^ k then v else v - 2 ^ (k + 1).
Proof.
  intros Hk Hv. rewrite land_lnot, land_pow2 by assumption.
  rewrite Z.pow_add_r, Z.pow_1_r in * by lia.
  assert (Hp : 0 < 2 ^ k) by (apply Z.pow_pos_nonneg; lia).
  rewrite Z.testbit_eqb by assumption.
  destruct (Z.ltb_spec v (2 ^ k)) as [Hlt|Hge].
  - rewrite Z.div_small by lia. cbn. lia.
  - replace (v / 2 ^ k) with 1; [cbn; lia|].
    apply Z.div_unique with (r := v - 2 ^ k); lia.
Qed.

(** Applied to the field of a legal sample of a signed domain, the
    correction gives the sample back. *)
Lemma sign_correction_recovers_sample (float_pattern : Q -> Z) (w : positive)
    (x : Q) :
  DataType.allowed (DataType.INT w) x = true ->
  let v := field_value float_pattern (DataType.INT w) x in
  let mask := 2 ^ (Z.pos w - 1) in
  - Z.land v mask + Z.land v (Z.lnot mask) = Py.int_of_float x.
Proof.
  intros Ha v mask. destruct (allowed_INT w x Ha) as [Hr He].
  assert (Hw : 2 ^ Z.pos w = 2 * 2 ^ (Z.pos w - 1)).
  { rewrite <- Z.pow_succ_r by lia. f_equal. lia. }
  assert (Hv : v = if Py.int_of_float x <? 0
                   then Py.int_of_float x + 2 ^ Z.pos w
                   else Py.int_of_float x).
  { unfold v, field_value. cbn [stored_int DataType.bitwidth].
    rewrite positive_nat_Z.
    destruct (Z.ltb_spec (Py.int_of_float x) 0).
    - rewrite <- (Z.mod_add _ 1) by lia. rewrite Z.mul_1_l.
      apply Z.mod_small. lia.
    - apply Z.mod_small. lia. }
  clearbody v. unfold mask. clear mask.
  assert (Hk : Z.pos w - 1 + 1 = Z.pos w) by lia.
  destruct (Z.ltb_spec (Py.int_of_float x) 0); subst v;
    rewrite sign_correction_value by (rewrite ?Hk; lia); rewrite Hk.
  - destruct (Z.ltb_spec (Py.int_of_float x + 2 ^ Z.pos w)
                (2 ^ (Z.pos w - 1))); lia.
  - destruct (Z.ltb_spec (Py.int_of_float x) (2 ^ (Z.pos w - 1))); lia.
Qed.

(** C4.  With [rtlsim] on, a signed domain of width 2 or 32 has every raw
    chunk value v replaced by -(v & mask) + (v & ~mask), mask = 2^(W-1); a
    signed domain of any other width keeps the raw values.  The raw value 3
    of the 2-bit signed domain becomes -1. *)
Theorem rtlsim_sign_correction (w : positive) (inner packedBits targetBits : nat)
    (word : string) :
  decode_word (DataType.INT w) inner packedBits targetBits true word
  = (ar_list <- raw_values inner packedBits targetBits word ;;
     Ok (map (fun v =>
                if (w =? 2)%positive || (w =? 32)%positive then
                  let mask := 2 ^ (Z.pos w - 1) in
                  - (Z.land v mask) + Z.land v (Z.lnot mask)
                else v) ar_list))
  /\ raw_values 1 2 2 "0x3" = Ok [3]
  /\ decode_word DataType.INT2 1 2 2 true "0x3" = Ok [-1].
Proof.
  split; [|split; reflexivity].
  unfold decode_word. destruct (raw_values _ _ _ _) as [ar_list|e];
    [cbn [bind]|reflexivity].
  f_equal. unfold rtlsim_adjust, DataType.INT2, DataType.INT32,
    DataType.eqb, DataType.bitwidth. rewrite positive_nat_Z.
  destruct ((w =? 2)%positive || (w =? 32)%positive); [reflexivity|].
  symmetry. apply map_id.
Qed.

(** ** Which bits of a word the decoder reads *)

Lemma field_at_low_bits (n : Z) (targetBits inner i : nat) :
  (i < inner)%nat ->
  field_at (n mod 2 ^ Z.of_nat (inner * targetBits)) targetBits i
  = field_at n targetBits i.
Proof.
  intros Hi. unfold field_at.
  set (l := Z.of_nat (i * targetBits)). set (w := Z.of_nat targetBits).
  set (k := Z.of_nat (inner * targetBits)).
  assert (Hk : k = (k - l - w) + w + l) by lia.
  assert (Hkl : 0 <= k - l - w) by (unfold k, l, w; nia).
  assert (Hl : 0 <= l) by (unfold l; lia).
  assert (Hw : 0 <= w) by (unfold w; lia).
  assert (Hpl : 0 < 2 ^ l) by (apply Z.pow_pos_nonneg; lia).
  assert (Hpw : 0 < 2 ^ w) by (apply Z.pow_pos_nonneg; lia).
  assert (Hpk : 0 < 2 ^ k) by (apply Z.pow_pos_nonneg; lia).
  pose proof (Z.div_mod n (2 ^ k) ltac:(lia)) as Hdm.
  assert (Hp : 2 ^ k = 2 ^ (k - l - w) * 2 ^ w * 2 ^ l).
  { rewrite <- !Z.pow_add_r by lia. f_equal. lia. }
  set (r := n mod 2 ^ k). pose (q := n / 2 ^ k).
  assert (Hn : n = 2 ^ (k - l - w) * q * 2 ^ w * 2 ^ l + r).
  { unfold q, r. transitivity (2 ^ k * (n / 2 ^ k) + n mod 2 ^ k);
      [exact Hdm|rewrite Hp; ring]. }
  rewrite Hn at 1. rewrite Z.div_add_l by lia.
  rewrite Z.add_comm, Z.mod_add by lia. reflexivity.
Qed.

Lemma fields_of_low_bits (n : Z) (targetBits inner : nat) :
  fields_of (n mod 2 ^ Z.of_nat (inner * targetBits)) targetBits inner
  = fields_of n targetBits inner.
Proof.
  unfold fields_of. apply map_ext_in. intros i Hi. apply in_seq in Hi.
  apply field_at_low_bits. lia.
Qed.

(** A chunk that reaches beyond the bit list holds the bits that are there:
    the missing high bits count as zeros. *)
Lemma slice_value_any (b : BitArray.t) (l w : nat) :
  BitArray.uint (rev (Py.slice (rev b) l (l + w)))
  = (BitArray.uint b / 2 ^ Z.of_nat l) mod 2 ^ Z.of_nat w.
Proof.
  destruct (Nat.le_gt_cases (l + w) (List.length b)) as [Hle|Hgt].
  - apply (slice_value b l w Hle).
  - set (k := (l + w - List.length b)%nat).
    destruct (slice_value (BitArray.zeros k ++ b) l w) as [_ Hv].
    { unfold BitArray.zeros. rewrite length_app, repeat_length. lia. }
    cbv zeta in Hv. rewrite uint_app, uint_zeros in Hv.
    rewrite Z.mul_0_l, Z.add_0_l in Hv. rewrite <- Hv. clear Hv.
    unfold Py.slice, BitArray.zeros.
    rewrite rev_app_distr, rev_repeat.
    rewrite (firstn_all2 (n := (l + w)%nat) (rev b ++ repeat false k))
      by (rewrite length_app, length_rev, repeat_length; lia).
    rewrite (firstn_all2 (n := (l + w)%nat) (rev b))
      by (rewrite length_rev; lia).
    rewrite skipn_app, rev_app_distr, uint_app.
    replace (BitArray.uint (rev (skipn (l - List.length (rev b)) (repeat false k))))
      with 0; [lia|].
    symmetry. rewrite <- (rev_involutive (repeat false k)), rev_repeat.
    assert (Hz : forall m n, skipn m (repeat false n) = repeat false (n - m)).
    { induction m as [|m IH]; intros [|n]; cbn; try reflexivity.
      - apply IH. }
    rewrite rev_repeat, Hz, rev_repeat. apply uint_zeros.
Qed.

(** Whatever the length of the bit list, a chunk loop that returns has
    computed the fields of its number. *)
Lemma chunks_sound (b : BitArray.t) (targetBits : nat) :
  forall count start ar_list r,
  chunks (rev b) targetBits (seq start count) ar_list = Ok r ->
  r = ar_list ++ map (field_at (BitArray.uint b) targetBits) (seq start count).
Proof.
  induction count as [|count IH]; intros start ar_list r H.
  - cbn in H. injection H as <-. now rewrite app_nil_r.
  - cbn [seq chunks map] in *.
    replace ((start + 1) * targetBits)%nat
      with (start * targetBits + targetBits)%nat in H by lia.
    pose proof (slice_value_any b (start * targetBits) targetBits) as Hv.
    destruct (rev (Py.slice (rev b) _ _)) as [|x elem]; [discriminate H|].
    apply IH in H. rewrite H, Hv, <- app_assoc. reflexivity.
Qed.

Lemma raw_values_sound (inner packedBits targetBits : nat) (w : string)
    (n : Z) (r : list Z) :
  parse_word w = Ok n ->
  raw_values inner packedBits targetBits w = Ok r ->
  r = fields_of n targetBits inner.
Proof.
  intros Hp. unfold raw_values. rewrite Hp. cbn [bind].
  destruct (Z.ltb_spec n 0) as [|Hn]; [discriminate|].
  intros H. apply chunks_sound in H.
  now rewrite uint_zfill, uint_bin_digits in H.
Qed.

(** One digit against a shape of two bits: the second chunk of 0x1 is
    empty, the congruent 0x5 has it. *)
Lemma uncovered_row_example :
  decode_word DataType.BINARY 2 1 1 false "0x1" = Raise ValueError
  /\ decode_word DataType.BINARY 2 1 1 false "0x5" = Ok [0; 1].
Proof. split; reflexivity. Qed.

(** C10, as stated, fails.  The words 0x1 and 0x5 agree modulo 2^2, but
    against a [packedBits] of one bit the second element of 0x1 has no bit
    to read and the call raises, while 0x5 is decoded: a higher bit decides
    whether the word decodes. *)
Lemma high_bit_decides_the_decoding :
  ~ (forall dtype inner packedBits targetBits rtlsim w1 w2 n1 n2,
       parse_word w1 = Ok n1 -> parse_word w2 = Ok n2 ->
       0 <= n1 -> 0 <= n2 ->
       n1 mod 2 ^ Z.of_nat (inner * targetBits)
       = n2 mod 2 ^ Z.of_nat (inner * targetBits) ->
       decode_word dtype inner packedBits targetBits rtlsim w1
       = decode_word dtype inner packedBits targetBits rtlsim w2).
Proof.
  intros H.
  specialize (H DataType.BINARY 2%nat 1%nat 1%nat false "0x1"%string
                "0x5"%string 1 5 eq_refl eq_refl ltac:(lia) ltac:(lia) eq_refl).
  destruct uncovered_row_example as [H1 H5]. rewrite H1, H5 in H.
  discriminate H.
Qed.

(** C10, amended.  Two hex words whose numbers agree modulo
    2^(innerCount*targetBits) decode to the same values, for every domain,
    shape and mode flag: whenever both are decoded the rows are equal, and
    when [packedBits] covers the row the two calls end alike in every
    respect.  Padding and higher bits are not read. *)
Theorem low_bits_decide_the_row (dtype : DataType.t) (inner packedBits
    targetBits : nat) (rtlsim : bool) (w1 w2 : string) (n1 n2 : Z) :
  parse_word w1 = Ok n1 -> parse_word w2 = Ok n2 ->
  0 <= n1 -> 0 <= n2 ->
  n1 mod 2 ^ Z.of_nat (inner * targetBits)
  = n2 mod 2 ^ Z.of_nat (inner * targetBits) ->
  (forall r1 r2,
     decode_word dtype inner packedBits targetBits rtlsim w1 = Ok r1 ->
     decode_word dtype inner packedBits targetBits rtlsim w2 = Ok r2 ->
     r1 = r2)
  /\ ((inner * targetBits <= packedBits)%nat ->
      decode_word dtype inner packedBits targetBits rtlsim w1
      = decode_word dtype inner packedBits targetBits rtlsim w2).
Proof.
  intros H1 H2 Hn1 Hn2 Hc.
  assert (Hf : fields_of n1 targetBits inner = fields_of n2 targetBits inner)
    by (now rewrite <- (fields_of_low_bits n1), Hc, fields_of_low_bits).
  unfold decode_word. split.
  - intros r1 r2.
    destruct (raw_values inner packedBits targetBits w1) as [l1|] eqn:E1;
      [|discriminate].
    destruct (raw_values inner packedBits targetBits w2) as [l2|] eqn:E2;
      [|discriminate].
    apply (raw_values_sound _ _ _ _ n1) in E1; [|assumption].
    apply (raw_values_sound _ _ _ _ n2) in E2; [|assumption].
    cbn [bind]. intros [= <-] [= <-]. now rewrite E1, E2, Hf.
  - intros Hlen. destruct targetBits as [|tb].
    + now rewrite (raw_values_zero_width _ _ _ n1),
        (raw_values_zero_width _ _ _ n2).
    + rewrite (raw_values_fields _ _ _ _ n1), (raw_values_fields _ _ _ _ n2)
        by (assumption || lia).
      now rewrite Hf.
Qed.

Lemma low_bits_decide_the_row_witness :
  decode_word (DataType.UINT 2) 2 4 2 true "0x1b"
  = decode_word (DataType.UINT 2) 2 4 2 true "0xfb".
Proof.
  apply (low_bits_decide_the_row (DataType.UINT 2) 2 4 2 true
           "0x1b" "0xfb" 27 251); try reflexivity; try lia.
Defined.

(** ** The tensor unpacker *)

Section Unpacker.

Variables (dtype : DataType.t) (inner packedBits targetBits : nat)
  (rtlsim : bool).

(** Words that decode are popped one after the other and their rows
    appended; the words behind them are not touched. *)
Lemma unpack_rows_decoded (ws : list string) (rows : list (list Z)) :
  Forall2 (fun w ar_list =>
             decode_word dtype inner packedBits targetBits rtlsim w = Ok ar_list)
    ws rows ->
  forall array rest,
  unpack_rows dtype inner packedBits targetBits rtlsim (List.length ws) array
    (ws ++ rest)
  = (Ok (array ++ rows), rest).
Proof.
  induction 1 as [|w r ws rows Hw _ IH]; intros array rest.
  - cbn. now rewrite app_nil_r.
  - cbn [List.length app unpack_rows pop_front]. cbv beta in Hw.
    rewrite Hw, IH, <- app_assoc. reflexivity.
Qed.

(** A word that does not decode ends the call; it has been popped, the
    words behind it have not. *)
Lemma unpack_rows_stopped (ws : list string) (rows : list (list Z))
    (w : string) (e : exn) :
  Forall2 (fun w ar_list =>
             decode_word dtype inner packedBits targetBits rtlsim w = Ok ar_list)
    ws rows ->
  decode_word dtype inner packedBits targetBits rtlsim w = Raise e ->
  forall count array rest,
  (List.length ws < count)%nat ->
  unpack_rows dtype inner packedBits targetBits rtlsim count array
    (ws ++ w :: rest)
  = (Raise e, rest).
Proof.
  induction 1 as [|w0 r ws rows Hw _ IH]; intros Hbad count array rest Hlt.
  - destruct count as [|count]; [cbn in Hlt; lia|].
    cbn [app unpack_rows pop_front]. now rewrite Hbad.
  - destruct count as [|count]; [cbn in Hlt; lia|].
    cbn [app unpack_rows pop_front]. cbv beta in Hw. rewrite Hw.
    apply IH; [assumption|cbn in Hlt; lia].
Qed.

(** When the words run out the call ends with the exception of [data[0]]. *)
Lemma unpack_rows_exhausted (ws : list string) (rows : list (list Z)) :
  Forall2 (fun w ar_list =>
             decode_word dtype inner packedBits targetBits rtlsim w = Ok ar_list)
    ws rows ->
  forall count array,
  (List.length ws < count)%nat ->
  unpack_rows dtype inner packedBits targetBits rtlsim count array ws
  = (Raise IndexError, []).
Proof.
  induction 1 as [|w0 r ws rows Hw _ IH]; intros count array Hlt.
  - destruct count as [|count]; [cbn in Hlt; lia|reflexivity].
  - destruct count as [|count]; [cbn in Hlt; lia|].
    cbn [unpack_rows pop_front]. cbv beta in Hw. rewrite Hw.
    apply IH. cbn in Hlt. lia.
Qed.

End Unpacker.

Lemma unpack_all_decoded (data : list string) (dtype : DataType.t)
    (shp : list nat) (packedBits targetBits : nat) (rtlsim : bool)
    (rows : list (list Z)) :
  shp <> [] ->
  (size_of (removelast shp) <= List.length data)%nat ->
  Forall2 (fun w ar_list =>
             decode_word dtype (last shp 0%nat) packedBits targetBits rtlsim w
             = Ok ar_list)
    (firstn (size_of (removelast shp)) data) rows ->
  unpack_innermost_dim_from_hex_string data dtype shp packedBits targetBits
    rtlsim
  = (Ok (mk_ndarray shp (List.concat rows)),
     skipn (size_of (removelast shp)) data).
Proof.
  intros Hs Hlen Hrows. unfold unpack_innermost_dim_from_hex_string.
  destruct shp as [|d0 shp']; [congruence|].
  set (shp := d0 :: shp') in *. set (outer := size_of (removelast shp)) in *.
  rewrite <- (firstn_skipn outer data) at 1.
  replace outer with (List.length (firstn outer data)) at 1
    by (rewrite length_firstn; lia).
  now rewrite (unpack_rows_decoded _ _ _ _ _ _ rows).
Qed.

(** C7, as stated, fails.  Of four words for three outer positions, the
    second of which does not decode, two are removed and two are left, not
    three and one: the call ends at the word it cannot read. *)
Lemma bad_word_ends_the_consumption :
  ~ (forall data dtype shp packedBits targetBits rtlsim,
       (size_of (removelast shp) <= List.length data)%nat ->
       snd (unpack_innermost_dim_from_hex_string data dtype shp packedBits
              targetBits rtlsim)
       = skipn (size_of (removelast shp)) data).
Proof.
  intros H.
  specialize (H ["0x7"; "oops"; "0x9"; "0xa"]%string (DataType.UINT 2)
                [3; 2]%nat 4%nat 2%nat true ltac:(cbn; lia)).
  discriminate H.
Qed.

(** C7, amended.  When the shape is not empty, [data] holds at least as
    many words as the shape has outer positions and each of these words
    decodes, [data] is left with exactly the words behind them, in their
    order; and when the integers they decode to are float32 values, which
    line 115 stores as they are, the call returns and the rows of the
    result are the decoded words in their order. *)
Theorem unpack_consumes_outer_words (data : list string) (dtype : DataType.t)
    (shp : list nat) (packedBits targetBits : nat) (rtlsim : bool)
    (rows : list (list Z)) :
  shp <> [] ->
  (size_of (removelast shp) <= List.length data)%nat ->
  Forall2 (fun w ar_list =>
             decode_word dtype (last shp 0%nat) packedBits targetBits rtlsim w
             = Ok ar_list)
    (firstn (size_of (removelast shp)) data) rows ->
  snd (unpack_innermost_dim_from_hex_string data dtype shp packedBits
         targetBits rtlsim)
  = skipn (size_of (removelast shp)) data
  /\ (Forall float32_ints rows ->
      unpack_innermost_dim_from_hex_string data dtype shp packedBits
        targetBits rtlsim
      = (Ok (mk_ndarray shp (List.concat rows)),
         skipn (size_of (removelast shp)) data)).
Proof.
  intros Hs Hlen Hrows.
  rewrite (unpack_all_decoded _ _ _ _ _ _ rows Hs Hlen Hrows). now split.
Qed.

Lemma unpack_consumes_outer_words_witness :
  unpack_innermost_dim_from_hex_string ["0x0e"; "0x06"; "0xff"]%string
    DataType.BINARY [2; 4]%nat 8 1 false
  = (Ok (mk_ndarray [2; 4]%nat [1; 1; 1; 0; 0; 1; 1; 0]), ["0xff"%string]).
Proof.
  apply (proj2 (unpack_consumes_outer_words ["0x0e"; "0x06"; "0xff"]%string
           DataType.BINARY [2; 4]%nat 8 1 false [[1; 1; 1; 0]; [0; 1; 1; 0]]
           ltac:(discriminate) ltac:(cbn; lia) ltac:(repeat constructor))).
  repeat constructor.
Defined.

(** The hypothesis of the theorem holds of every word in the format of the
    encoder, once [packedBits] covers the fields of a row. *)
Lemma unpack_hex_words (data : list string) (dtype : DataType.t)
    (shp : list nat) (packedBits targetBits : nat) (rtlsim : bool) :
  shp <> [] ->
  (size_of (removelast shp) <= List.length data)%nat ->
  Forall hex_word (firstn (size_of (removelast shp)) data) ->
  (0 < targetBits)%nat ->
  (last shp 0%nat * targetBits <= packedBits)%nat ->
  exists array,
    unpack_innermost_dim_from_hex_string data dtype shp packedBits targetBits
      rtlsim
    = (Ok array, skipn (size_of (removelast shp)) data).
Proof.
  intros Hs Hlen Hw Htb Hpb.
  assert (Hrows : exists rows,
            Forall2 (fun w ar_list =>
                       decode_word dtype (last shp 0%nat) packedBits targetBits
                         rtlsim w = Ok ar_list)
              (firstn (size_of (removelast shp)) data) rows).
  { induction Hw as [|w ws (digits & -> & Hd & Hne) _ [rows IH]].
    - exists []. constructor.
    - destruct (parse_lower_hex digits Hd Hne) as (n & Hn & Hr).
      eexists (_ :: rows). constructor; [|exact IH].
      apply (decode_word_fields _ _ _ _ _ _ n); (assumption || lia). }
  destruct Hrows as [rows Hrows]. exists (mk_ndarray shp (List.concat rows)).
  apply unpack_all_decoded; assumption.
Qed.

(** ** The tensor packer *)

Lemma map_rows_all {A B : Type} (f : list A -> result B)
    (rows : list (list A)) (cells : list B) :
  Forall2 (fun r c => f r = Ok c) rows cells ->
  map_rows f rows = Ok cells.
Proof.
  induction 1 as [|r c rows cells Hr _ IH]; [reflexivity|].
  cbn [map_rows]. now rewrite Hr, IH.
Qed.

Lemma map_rows_failure {A B : Type} (f : list A -> result B)
    (rows : list (list A)) :
  Exists (fun r => exists e, f r = Raise e) rows ->
  exists e, map_rows f rows = Raise e.
Proof.
  induction 1 as [r rows [e He]|r rows _ [e IH]]; cbn [map_rows].
  - exists e. now rewrite He.
  - destruct (f r) as [y|e']; [|now exists e'].
    exists e. cbn [bind]. now rewrite IH.
Qed.

Lemma Forall2_map_l {A B C : Type} (g : A -> B) (P : B -> C -> Prop)
    (l : list A) (cells : list C) :
  Forall2 (fun i c => P (g i) c) l cells -> Forall2 P (map g l) cells.
Proof. induction 1; cbn; constructor; assumption. Qed.

Lemma map_rows_returned {A B : Type} (f : list A -> result B)
    (rows : list (list A)) :
  forall cells,
  map_rows f rows = Ok cells ->
  Forall2 (fun r c => f r = Ok c) rows cells.
Proof.
  induction rows as [|r rows IH]; intros cells H; cbn [map_rows] in H.
  - injection H as <-. constructor.
  - destruct (f r) as [y|e] eqn:Hr; [cbn [bind] in H|discriminate H].
    destruct (map_rows f rows) as [ys|e]; [cbn [bind] in H|discriminate H].
    injection H as <-. constructor; [assumption|now apply IH].
Qed.

Lemma Forall2_unmap_l {A B C : Type} (g : A -> B) (P : B -> C -> Prop)
    (l : list A) :
  forall cells,
  Forall2 P (map g l) cells -> Forall2 (fun i c => P (g i) c) l cells.
Proof.
  induction l as [|x l IH]; intros cells H; inversion H; subst;
    constructor; auto.
Qed.

(** C8, as stated, fails.  A tensor without any innermost slice, of shape
    (0, 4), is not packed to an array of shape (0): [np.apply_along_axis]
    raises ValueError. *)
Lemma tensor_without_slices_is_refused :
  ~ (forall (float_pattern : Q -> Z) a dtype pad_to_nbits,
       shape a <> [] -> well_shaped a ->
       legal dtype (flat a) -> float32_row (flat a) ->
       exists b,
         pack_innermost_dim_as_hex_string float_pattern a dtype pad_to_nbits
         = Ok b
         /\ shape b = removelast (shape a))
  /\ pack_innermost_dim_as_hex_string example_pattern
       (mk_ndarray [0; 4]%nat []) DataType.BINARY 8
     = Raise ValueError.
Proof.
  split; [|reflexivity]. intros H.
  destruct (H example_pattern (mk_ndarray [0; 4]%nat []) DataType.BINARY 8)
    as (b & Hb & _);
    [discriminate|reflexivity|constructor|constructor|discriminate Hb].
Qed.

(** C8, amended.  For a tensor of at least one dimension with at least one
    innermost slice: when the row encoder returns a string for every slice
    the packer
    returns the array of these strings, whose shape is the shape of the
    tensor without its last entry; and whatever array the packer returns
    has that shape and, in each cell, the string of the row encoder for the
    slice of that cell.  The two rows 1,1,1,0 and 0,1,1,0 of the binary
    domain padded to 8 give 0x0e and 0x06. *)
Theorem pack_encodes_every_slice (float_pattern : Q -> Z) :
  (forall (a : ndarray Q) dtype pad_to_nbits (cells : list string),
     shape a <> [] ->
     size_of (removelast (shape a)) <> 0%nat ->
     Forall2 (fun i c =>
                array2hexstring float_pattern
                  (row (last (shape a) 0%nat) (flat a) i) dtype pad_to_nbits "0x"
                = Ok c)
       (seq 0 (size_of (removelast (shape a)))) cells ->
     pack_innermost_dim_as_hex_string float_pattern a dtype pad_to_nbits
     = Ok (mk_ndarray (removelast (shape a)) cells))
  /\ (forall (a : ndarray Q) dtype pad_to_nbits (b : ndarray string),
        pack_innermost_dim_as_hex_string float_pattern a dtype pad_to_nbits
        = Ok b ->
        shape b = removelast (shape a)
        /\ Forall2 (fun i c =>
                      array2hexstring float_pattern
                        (row (last (shape a) 0%nat) (flat a) i) dtype
                        pad_to_nbits "0x"
                      = Ok c)
             (seq 0 (size_of (removelast (shape a)))) (flat b))
  /\ pack_innermost_dim_as_hex_string float_pattern
       (mk_ndarray [2; 4]%nat
          [1 # 1; 1 # 1; 1 # 1; 0 # 1; 0 # 1; 1 # 1; 1 # 1; 0 # 1])
       DataType.BINARY 8
     = Ok (mk_ndarray [2%nat] ["0x0e"; "0x06"]%string).
Proof.
  split; [|split; [|reflexivity]].
  - intros a dtype pad_to_nbits cells Hs Hn Hc.
    unfold pack_innermost_dim_as_hex_string, apply_along_last_axis.
    destruct (shape a) as [|d0 shp'] eqn:Hshape; [congruence|].
    destruct (size_of (removelast (d0 :: shp'))) as [|count] eqn:Hcount;
      [congruence|].
    rewrite (map_rows_all _ _ cells); [reflexivity|].
    now apply Forall2_map_l.
  - intros a dtype pad_to_nbits b.
    unfold pack_innermost_dim_as_hex_string, apply_along_last_axis.
    destruct (shape a) as [|d0 shp'] eqn:Hshape; [discriminate|].
    destruct (size_of (removelast (d0 :: shp'))) as [|count] eqn:Hcount;
      [discriminate|].
    destruct (map_rows _ _) as [cells|e] eqn:Hrows; [|discriminate].
    cbn [bind]. intros [= <-]. cbn [shape flat]. split; [reflexivity|].
    apply map_rows_returned in Hrows. now apply Forall2_unmap_l in Hrows.
Qed.

Lemma pack_encodes_every_slice_witness :
  pack_innermost_dim_as_hex_string example_pattern
    (mk_ndarray [2; 2; 2]%nat
       [3 # 1; 3 # 1; 3 # 1; 3 # 1; 1 # 1; 3 # 1; 3 # 1; 1 # 1])
    (DataType.UINT 2) 8
  = Ok (mk_ndarray [2; 2]%nat ["0x0f"; "0x0f"; "0x07"; "0x0d"]%string).
Proof.
  apply (proj1 (pack_encodes_every_slice example_pattern)
           (mk_ndarray [2; 2; 2]%nat
              [3 # 1; 3 # 1; 3 # 1; 3 # 1; 1 # 1; 3 # 1; 3 # 1; 1 # 1])
           (DataType.UINT 2) 8 ["0x0f"; "0x0f"; "0x07"; "0x0d"]%string).
  - discriminate.
  - discriminate.
  - repeat constructor.
Defined.

(** A slice the row encoder refuses makes the packer raise as well. *)
Lemma pack_propagates_failure (float_pattern : Q -> Z) (a : ndarray Q)
    (dtype : DataType.t) (pad_to_nbits : Z) (i : nat) (e : exn) :
  shape a <> [] ->
  (i < size_of (removelast (shape a)))%nat ->
  array2hexstring float_pattern (row (last (shape a) 0%nat) (flat a) i) dtype
    pad_to_nbits "0x" = Raise e ->
  exists e',
    pack_innermost_dim_as_hex_string float_pattern a dtype pad_to_nbits
    = Raise e'.
Proof.
  intros Hs Hi He.
  unfold pack_innermost_dim_as_hex_string, apply_along_last_axis.
  destruct (shape a) as [|d0 shp'] eqn:Hshape; [congruence|].
  destruct (size_of (removelast (d0 :: shp'))) as [|count] eqn:Hcount; [lia|].
  destruct (map_rows_failure
              (fun x => array2hexstring float_pattern x dtype pad_to_nbits "0x")
              (map (row (last (d0 :: shp') 0%nat) (flat a)) (seq 0 (S count))))
    as [e' He'].
  - apply Exists_exists. eexists. split.
    + apply in_map, in_seq. split; [lia|exact Hi].
    + now exists e.
  - exists e'. now rewrite He'.
Qed.

(** The cells of a packed tensor have one length, so the fixed-width string
    type numpy takes from the first cell holds every other cell whole. *)
Lemma cells_of_one_length (float_pattern : Q -> Z) (a : ndarray Q)
    (dtype : DataType.t) (pad_to_nbits : Z) (b : ndarray string) :
  pack_innermost_dim_as_hex_string float_pattern a dtype pad_to_nbits = Ok b ->
  Forall (fun c => 4 * Z.of_nat (String.length c) = 8 + padded_width pad_to_nbits)
    (flat b).
Proof.
  unfold pack_innermost_dim_as_hex_string, apply_along_last_axis.
  destruct (shape a) as [|d0 shp']; [discriminate|].
  destruct (size_of (removelast (d0 :: shp'))) as [|count]; [discriminate|].
  destruct (map_rows _ _) as [cells|e] eqn:Hrows; [|discriminate].
  cbn [bind]. intros [= <-]. cbn [flat].
  apply map_rows_returned in Hrows.
  induction Hrows as [|r c rows cells Hr _ IH]; constructor; [|exact IH].
  destruct (returned_string _ _ _ _ _ Hr) as (digits & -> & _ & Hl).
  cbn [String.length]. lia.
Qed.

(** ** More on the row encoder *)

Section EncoderEdges.

Variable float_pattern : Q -> Z.

Lemma append_fields_illegal (dtype : DataType.t) (v : list Q) :
  dtype <> DataType.BIPOLAR ->
  Exists (fun x => DataType.allowed dtype x = false) v ->
  forall lineval,
  append_fields float_pattern dtype v lineval = Raise AssertionError.
Proof.
  intros Hd. induction 1 as [x v Hx|x v _ IH]; intros lineval;
    cbn [append_fields].
  - now rewrite Hx.
  - destruct (DataType.allowed dtype x) eqn:Hx; [|reflexivity].
    rewrite field_of_legal by assumption. cbn [bind]. apply IH.
Qed.

(** X1.  In every domain but the bipolar one, a row of float32 values with
    a sample the domain does not allow makes the encoder raise
    AssertionError, whatever [pad_to_nbits] is: the samples are checked
    before the widths are compared.  (A number that is not a float32 value
    is rounded by line 26 before it is checked.) *)
Theorem illegal_sample_is_asserted (dtype : DataType.t) (v : list Q)
    (pad_to_nbits : Z) (prefix : string) :
  dtype <> DataType.BIPOLAR ->
  float32_row v ->
  Exists (fun x => DataType.allowed dtype x = false) v ->
  array2hexstring float_pattern v dtype pad_to_nbits prefix
  = Raise AssertionError.
Proof.
  intros Hd _ Hv. unfold array2hexstring.
  destruct dtype; try congruence; cbn [DataType.eqb];
    now rewrite append_fields_illegal.
Qed.

Lemma hex_of_fitting_row (dtype : DataType.t) (v : list Q) (pad_to_nbits : Z) :
  natural_length v dtype <= padded_width pad_to_nbits ->
  Z.of_nat (List.length
              (BitArray.zeros
                 (Z.to_nat (padded_width pad_to_nbits - natural_length v dtype))
               ++ row_bits float_pattern dtype v))
  = padded_width pad_to_nbits.
Proof.
  intros Hle. unfold BitArray.zeros.
  rewrite length_app, repeat_length, Nat2Z.inj_add, length_row_bits. lia.
Qed.

(** X2.  On a legal row of float32 values that fits the padded width the
    only question left is the hex rendering: the encoder returns a string
    when max(padTo, 4) is a multiple of four and raises bitstring's
    InterpretError when it is not. *)
Theorem fitting_row_needs_whole_digits (dtype : DataType.t) (v : list Q)
    (pad_to_nbits : Z) (prefix : string) :
  legal dtype v ->
  float32_row v ->
  natural_length v dtype <= padded_width pad_to_nbits ->
  (padded_width pad_to_nbits mod 4 = 0 ->
   exists digits,
     array2hexstring float_pattern v dtype pad_to_nbits prefix
     = Ok (prefix ++ digits)%string)
  /\ (padded_width pad_to_nbits mod 4 <> 0 ->
      array2hexstring float_pattern v dtype pad_to_nbits prefix
      = Raise InterpretError).
Proof.
  intros Hv _ Hle. rewrite array2hexstring_legal by assumption.
  destruct (Z.geb_spec (padded_width pad_to_nbits) (natural_length v dtype));
    [|lia].
  pose proof (hex_of_fitting_row dtype v pad_to_nbits Hle) as Hlen.
  split; intros Hm.
  - destruct (hex_nibbles (Z.to_nat (padded_width pad_to_nbits / 4))
                (BitArray.zeros
                   (Z.to_nat (padded_width pad_to_nbits - natural_length v dtype))
                 ++ row_bits float_pattern dtype v)) as (digits & Hd & _).
    { pose proof (Z.div_mod (padded_width pad_to_nbits) 4).
      assert (0 <= padded_width pad_to_nbits) by (unfold padded_width; lia).
      lia. }
    exists digits. now rewrite Hd.
  - rewrite hex_ragged; [reflexivity|].
    intros Hz. apply Hm.
    assert (0 <= padded_width pad_to_nbits) by (unfold padded_width; lia).
    rewrite <- Hlen.
    rewrite <- (Nat2Z.id (List.length _ mod 4)) in Hz.
    apply (f_equal Z.of_nat) in Hz. rewrite Nat2Z.id in Hz.
    rewrite Nat2Z.inj_mod in Hz. exact Hz.
Qed.

Lemma hex_of_zeros (k : nat) :
  BitArray.hex (BitArray.zeros (4 * k))
  = Ok (string_of_list_ascii (repeat "0"%char k)).
Proof.
  induction k as [|k IH]; [reflexivity|].
  replace (4 * S k)%nat with (S (S (S (S (4 * k))))) by lia.
  unfold BitArray.zeros in *. cbn [repeat BitArray.hex]. rewrite IH. reflexivity.
Qed.

(** X3.  The empty row is encoded as zeros only: [0x] followed by one 0 for
    every four bits of the padded width, in every domain. *)
Theorem empty_row_is_all_zero (dtype : DataType.t) (pad_to_nbits : Z)
    (k : nat) :
  padded_width pad_to_nbits = 4 * Z.of_nat k ->
  array2hexstring float_pattern [] dtype pad_to_nbits "0x"
  = Ok (String "0" (String "x" (string_of_list_ascii (repeat "0"%char k)))).
Proof.
  intros Hk. rewrite array2hexstring_legal by constructor.
  unfold natural_length, row_bits. cbn [List.length map List.concat Nat.mul].
  destruct (Z.geb_spec (padded_width pad_to_nbits) (Z.of_nat 0)) as [_|H];
    [|unfold padded_width in H; lia].
  rewrite app_nil_r, Hk.
  replace (Z.to_nat (4 * Z.of_nat k - Z.of_nat 0)) with (4 * k)%nat by lia.
  now rewrite hex_of_zeros.
Qed.

Lemma uint_row_bits_from (dtype : DataType.t) (v : list Q) :
  forall bits : BitArray.t,
  BitArray.uint (bits ++ row_bits float_pattern dtype v)
  = fold_left
      (fun acc x =>
         acc * 2 ^ Z.of_nat (DataType.bitwidth dtype)
         + field_value float_pattern dtype x)
      v (BitArray.uint bits).
Proof.
  unfold row_bits. induction v as [|x v IH]; intros bits.
  - cbn. now rewrite app_nil_r.
  - cbn [map List.concat fold_left]. rewrite app_assoc, IH. f_equal.
    rewrite uint_app, length_of_Z, uint_of_Z. reflexivity.
Qed.

(** X4.  The string of an accepted legal row of float32 values reads back,
    in base 16, as the numeral whose digits in base 2^bitwidth are the
    fields of the samples, the first sample most significant; padding does
    not change the number. *)
Theorem encoded_row_number (dtype : DataType.t) (v : list Q)
    (pad_to_nbits : Z) :
  legal dtype v ->
  float32_row v ->
  natural_length v dtype <= padded_width pad_to_nbits ->
  padded_width pad_to_nbits mod 4 = 0 ->
  exists s,
    array2hexstring float_pattern v dtype pad_to_nbits "0x" = Ok s
    /\ parse_word s = Ok (row_number float_pattern dtype v).
Proof.
  intros Hv _ Hle Hm.
  destruct (array2hexstring_accepts float_pattern v dtype pad_to_nbits Hv Hle Hm)
    as (digits & Hs & Hp).
  eexists. split; [exact Hs|]. rewrite Hp. f_equal.
  apply (uint_row_bits_from dtype v []).
Qed.

End EncoderEdges.

Lemma fitting_row_needs_whole_digits_witness :
  array2hexstring example_pattern [1 # 1; 2 # 1; 3 # 1] (DataType.UINT 2) 6 "0x"
  = Raise InterpretError.
Proof.
  apply (proj2 (fitting_row_needs_whole_digits example_pattern
                  (DataType.UINT 2) [1 # 1; 2 # 1; 3 # 1] 6 "0x"%string
                  ltac:(repeat constructor) ltac:(repeat constructor)
                  ltac:(vm_compute; discriminate))).
  vm_compute. discriminate.
Defined.

Lemma illegal_sample_is_asserted_witness :
  array2hexstring example_pattern [1 # 1; 5 # 1] (DataType.UINT 2) 1 "0x"
  = Raise AssertionError.
Proof.
  apply (illegal_sample_is_asserted example_pattern).
  - discriminate.
  - repeat constructor.
  - apply Exists_cons_tl, Exists_cons_hd. reflexivity.
Defined.

Lemma empty_row_is_all_zero_witness :
  array2hexstring example_pattern [] DataType.FLOAT32 12 "0x" = Ok "0x000"%string.
Proof.
  apply (empty_row_is_all_zero example_pattern DataType.FLOAT32 12 3).
  reflexivity.
Defined.

Lemma encoded_row_number_witness :
  exists s,
    array2hexstring example_pattern [-1 # 1; 2 # 1] (DataType.INT 3) 8 "0x" = Ok s
    /\ parse_word s = Ok (row_number example_pattern (DataType.INT 3)
                            [-1 # 1; 2 # 1]).
Proof.
  apply encoded_row_number.
  - repeat constructor.
  - repeat constructor.
  - vm_compute. discriminate.
  - reflexivity.
Defined.

(** ** More on the row decoder *)

Lemma raw_values_parsed (inner packedBits targetBits : nat) (w : string)
    (r : list Z) :
  raw_values inner packedBits targetBits w = Ok r ->
  exists n, parse_word w = Ok n /\ 0 <= n /\ r = fields_of n targetBits inner.
Proof.
  intros H. destruct (parse_word w) as [n|e] eqn:Hp.
  - exists n. split; [reflexivity|]. split.
    + unfold raw_values in H. rewrite Hp in H. cbn [bind] in H.
      destruct (Z.ltb_spec n 0); [discriminate H|assumption].
    + now apply (raw_values_sound inner packedBits targetBits w).
  - unfold raw_values in H. rewrite Hp in H. discriminate H.
Qed.

Lemma fields_of_range (n : Z) (targetBits count : nat) :
  List.length (fields_of n targetBits count) = count
  /\ Forall (fun z => 0 <= z < 2 ^ Z.of_nat targetBits)
       (fields_of n targetBits count).
Proof.
  unfold fields_of. split; [now rewrite length_map, length_seq|].
  apply Forall_forall. intros z Hz. apply in_map_iff in Hz.
  destruct Hz as (i & <- & _). unfold field_at.
  apply Z.mod_pos_bound, Z.pow_pos_nonneg; lia.
Qed.

(** X5.  With [rtlsim] off a decoded row has one value per element of the
    inner dimension, each a non-negative integer below 2^targetBits,
    whatever the domain: no value comes back negative. *)
Theorem decoded_values_are_unsigned (dtype : DataType.t) (inner packedBits
    targetBits : nat) (w : string) (r : list Z) :
  decode_word dtype inner packedBits targetBits false w = Ok r ->
  List.length r = inner
  /\ Forall (fun z => 0 <= z < 2 ^ Z.of_nat targetBits) r.
Proof.
  unfold decode_word.
  destruct (raw_values inner packedBits targetBits w) as [l|e] eqn:Hl;
    [cbn [bind]|discriminate].
  intros [= <-]. apply raw_values_parsed in Hl.
  destruct Hl as (n & _ & _ & ->).
  destruct (fields_of_range n targetBits inner) as [Hlen Hr].
  split; [now rewrite length_rev|]. apply Forall_rev, Hr.
Qed.

Lemma decoded_values_are_unsigned_witness :
  List.length [7; 3] = 2%nat
  /\ Forall (fun z => 0 <= z < 2 ^ Z.of_nat 3) [7; 3].
Proof.
  apply (decoded_values_are_unsigned (DataType.INT 3) 2 8 3 "0x3b").
  reflexivity.
Defined.

Lemma decoded_row_length (dtype : DataType.t) (inner packedBits
    targetBits : nat) (rtlsim : bool) (w : string) (r : list Z) :
  decode_word dtype inner packedBits targetBits rtlsim w = Ok r ->
  List.length r = inner.
Proof.
  unfold decode_word.
  destruct (raw_values inner packedBits targetBits w) as [l|e] eqn:Hl;
    [cbn [bind]|discriminate].
  intros [= <-]. apply raw_values_parsed in Hl.
  destruct Hl as (n & _ & _ & ->).
  destruct (fields_of_range n targetBits inner) as [Hlen _].
  destruct rtlsim; [|now rewrite length_rev].
  unfold rtlsim_adjust.
  destruct (DataType.eqb dtype DataType.BIPOLAR); [now rewrite length_map|].
  destruct (_ || _); [now rewrite length_map|assumption].
Qed.

(** *** When a word is decoded *)

Lemma slice_is_empty {A : Type} (l : list A) (lower upper : nat) :
  Py.slice l lower upper = []
  <-> (Nat.min upper (List.length l) <= lower)%nat.
Proof.
  unfold Py.slice. split.
  - intros H. apply (f_equal (@List.length A)) in H.
    rewrite length_skipn, length_firstn in H. cbn in H. lia.
  - intros H. apply skipn_all2. rewrite length_firstn. lia.
Qed.

Lemma chunks_accepted (bits : list bool) (targetBits : nat) :
  forall count start ar_list,
  (exists r, chunks bits targetBits (seq start count) ar_list = Ok r)
  <-> (count = 0%nat
       \/ (0 < targetBits /\ (start + count - 1) * targetBits < List.length bits)%nat).
Proof.
  induction count as [|count IH]; intros start ar_list.
  - cbn. split; [now left|]. intros _. now eexists.
  - cbn [seq chunks].
    destruct (rev (Py.slice bits (start * targetBits) ((start + 1) * targetBits)))
      as [|x elem] eqn:E.
    + split; [intros [r Hr]; discriminate Hr|].
      intros [H|[Htb Hlen]]; [discriminate H|exfalso].
      apply (f_equal (@rev bool)) in E. rewrite rev_involutive in E. cbn in E.
      apply slice_is_empty in E. nia.
    + assert (Hne : Py.slice bits (start * targetBits) ((start + 1) * targetBits)
                    <> []).
      { intros H. rewrite H in E. discriminate E. }
      rewrite slice_is_empty in Hne.
      rewrite IH. split.
      * intros [->|[Htb Hlen]]; right; split; try lia; nia.
      * intros [H|[Htb Hlen]]; [discriminate H|].
        destruct count as [|count]; [now left|right]. split; [assumption|].
        replace (S start + S count - 1)%nat with (start + S (S count) - 1)%nat
          by lia. exact Hlen.
Qed.

Lemma chunks_raise_value_error (bits : list bool) (targetBits : nat)
    (indices : list nat) (e : exn) :
  forall ar_list,
  chunks bits targetBits indices ar_list = Raise e -> e = ValueError.
Proof.
  induction indices as [|i l IH]; intros acc H; cbn [chunks] in H;
    [discriminate H|].
  destruct (rev (Py.slice bits _ _)); [congruence|now apply IH in H].
Qed.

(** X6.  A word that parses to a non-negative number is decoded exactly
    when every chunk starts inside its bit string, whose length is the
    larger of [packedBits] and the number of binary digits of the word:
    [inner] is zero, or [targetBits] is positive and the last chunk starts
    below that length.  Otherwise the call raises ValueError. *)
Theorem word_is_decoded_iff (dtype : DataType.t) (inner packedBits
    targetBits : nat) (rtlsim : bool) (w : string) (n : Z) :
  parse_word w = Ok n -> 0 <= n ->
  let width := Nat.max packedBits (List.length (Py.bin_digits n)) in
  ((exists r, decode_word dtype inner packedBits targetBits rtlsim w = Ok r)
   <-> (inner = 0%nat
        \/ (0 < targetBits /\ (inner - 1) * targetBits < width)%nat))
  /\ ((forall r, decode_word dtype inner packedBits targetBits rtlsim w <> Ok r)
      -> decode_word dtype inner packedBits targetBits rtlsim w
         = Raise ValueError).
Proof.
  intros Hp Hn width. unfold decode_word, raw_values. rewrite Hp. cbn [bind].
  destruct (Z.ltb_spec n 0) as [|_]; [lia|].
  pose proof (chunks_accepted (rev (Py.zfill packedBits (Py.bin_digits n)))
                targetBits inner 0 []) as Hc.
  rewrite length_rev, length_zfill in Hc. cbn [Nat.add] in Hc. fold width in Hc.
  split.
  - rewrite <- Hc. split; intros [r Hr].
    + destruct (chunks _ _ _ _) as [l|e]; [now exists l|discriminate Hr].
    + rewrite Hr. cbn [bind]. now eexists.
  - intros Hno. destruct (chunks _ _ _ _) as [l|e] eqn:E.
    + exfalso. eapply Hno. reflexivity.
    + cbn [bind]. f_equal. now apply chunks_raise_value_error in E.
Qed.

Lemma word_is_decoded_iff_witness :
  (exists r, decode_word DataType.BINARY 3 1 2 false "0x15" = Ok r)
  <-> (3 = 0 \/ 0 < 2 /\ (3 - 1) * 2
                          < Nat.max 1 (List.length (Py.bin_digits 21)))%nat.
Proof.
  apply (proj1 (word_is_decoded_iff DataType.BINARY 3 1 2 false "0x15" 21
                  ltac:(reflexivity) ltac:(lia))).
Defined.

(** *** Words that do not parse *)

Lemma split_not_empty (sep : ascii) (s : string) : Py.split sep s <> [].
Proof.
  destruct s as [|c s]; cbn [Py.split]; [discriminate|].
  destruct (Ascii.eqb c sep); [discriminate|].
  destruct (Py.split sep s); discriminate.
Qed.

Lemma split_one_piece (sep : ascii) (s : string) :
  List.length (Py.split sep s) = 1%nat
  <-> all_chars (fun c => negb (Ascii.eqb c sep)) s = true.
Proof.
  split.
  - induction s as [|c s IH]; [reflexivity|]. cbn [Py.split all_chars].
    pose proof (split_not_empty sep s) as Hne.
    destruct (Ascii.eqb c sep) eqn:Hc.
    + destruct (Py.split sep s); [congruence|discriminate].
    + cbn [negb andb]. destruct (Py.split sep s) as [|h t] eqn:E; [congruence|].
      cbn. intros H. apply IH. cbn. exact H.
  - intros H. now rewrite split_without_sep.
Qed.

(** X7.  A word raises IndexError exactly when it has no [x] in it:
    [split("x")] then leaves a single piece and [ar_elem[1]] does not
    exist. *)
Theorem word_without_x_is_an_index_error (w : string) :
  parse_word w = Raise IndexError
  <-> all_chars (fun c => negb (Ascii.eqb c "x")) w = true.
Proof.
  rewrite <- split_one_piece. unfold parse_word.
  destruct (Py.split "x" w) as [|p0 [|p1 rest]] eqn:E; cbn [nth_error].
  - now apply split_not_empty in E.
  - split; reflexivity.
  - destruct (Py.int16 p1); split; intros H; discriminate H.
Qed.

(** ** More on the tensor unpacker *)

Section UnpackerCalls.

Variables (dtype : DataType.t) (inner packedBits targetBits : nat)
  (rtlsim : bool).

(** Whatever happens, the loop leaves a tail of the list it was given. *)
Lemma unpack_rows_leaves_a_tail (count : nat) :
  forall array data,
  exists k,
    (k <= count /\ k <= List.length data)%nat
    /\ snd (unpack_rows dtype inner packedBits targetBits rtlsim count array data)
       = skipn k data
    /\ (forall r,
          fst (unpack_rows dtype inner packedBits targetBits rtlsim count array
                 data) = Ok r -> k = count).
Proof.
  induction count as [|count IH]; intros array data.
  - exists 0%nat. cbn. repeat split; lia.
  - destruct data as [|w data]; cbn [unpack_rows pop_front].
    + exists 0%nat. cbn. repeat split; try lia. discriminate.
    + destruct (decode_word dtype inner packedBits targetBits rtlsim w)
        as [ar_list|e].
      * destruct (IH (array ++ [ar_list]) data) as (k & [Hk Hl] & Hs & Hr).
        exists (S k). cbn [List.length skipn].
        split; [lia|]. split; [exact Hs|].
        intros r H. f_equal. now apply (Hr r).
      * exists 1%nat. cbn. repeat split; try lia. discriminate.
Qed.

(** A loop that returns has decoded one word per row, each row of [inner]
    values. *)
Lemma unpack_rows_returned (count : nat) :
  forall array data r rest,
  unpack_rows dtype inner packedBits targetBits rtlsim count array data
  = (Ok r, rest) ->
  exists rows,
    r = array ++ rows
    /\ List.length rows = count
    /\ Forall (fun row => List.length row = inner) rows.
Proof.
  induction count as [|count IH]; intros array data r rest H.
  - cbn in H. injection H as <- <-. exists []. now rewrite app_nil_r.
  - destruct data as [|w data]; cbn [unpack_rows pop_front] in H;
      [discriminate H|].
    destruct (decode_word dtype inner packedBits targetBits rtlsim w)
      as [ar_list|e] eqn:Hw; [|discriminate H].
    apply IH in H. destruct H as (rows & -> & Hl & Hf).
    exists (ar_list :: rows). rewrite <- app_assoc. repeat split.
    + cbn. now rewrite Hl.
    + constructor; [|assumption]. exact (decoded_row_length _ _ _ _ _ _ _ Hw).
Qed.

End UnpackerCalls.

Lemma size_of_from (shp : list nat) : forall a,
  fold_left Nat.mul shp a = (a * size_of shp)%nat.
Proof.
  unfold size_of. induction shp as [|d shp IH]; intros a; cbn [fold_left].
  - lia.
  - rewrite IH, (IH (1 * d)%nat). lia.
Qed.

Lemma size_of_split (shp : list nat) :
  shp <> [] -> size_of shp = (size_of (removelast shp) * last shp 0)%nat.
Proof.
  intros Hs. rewrite (app_removelast_last 0%nat Hs) at 1.
  unfold size_of at 1. rewrite fold_left_app. cbn [fold_left].
  fold (size_of (removelast shp)). lia.
Qed.

Lemma length_concat_rows {A : Type} (rows : list (list A)) (n : nat) :
  Forall (fun row => List.length row = n) rows ->
  List.length (List.concat rows) = (List.length rows * n)%nat.
Proof.
  induction 1 as [|row rows Hr _ IH]; [reflexivity|].
  cbn [List.concat List.length]. rewrite length_app, IH, Hr. lia.
Qed.

(** X8.  Every call, returning or raising, leaves in [data] a tail of what
    it was given: it has removed some k of the leading words, never more
    than the number of outer positions, and exactly that number when it
    returns.  No word is changed or reordered. *)
Theorem unpack_only_removes_leading_words (data : list string)
    (dtype : DataType.t) (shp : list nat) (packedBits targetBits : nat)
    (rtlsim : bool) :
  exists k,
    (k <= size_of (removelast shp) /\ k <= List.length data)%nat
    /\ snd (unpack_innermost_dim_from_hex_string data dtype shp packedBits
              targetBits rtlsim) = skipn k data
    /\ (forall a,
          fst (unpack_innermost_dim_from_hex_string data dtype shp packedBits
                 targetBits rtlsim) = Ok a ->
          k = size_of (removelast shp)).
Proof.
  unfold unpack_innermost_dim_from_hex_string.
  destruct shp as [|d0 shp'].
  - exists 0%nat. cbn. repeat split; try lia. discriminate.
  - set (shp := d0 :: shp').
    destruct (unpack_rows_leaves_a_tail dtype (last shp 0%nat) packedBits
                targetBits rtlsim (size_of (removelast shp)) [] data)
      as (k & Hk & Hs & Hr).
    exists k. destruct (unpack_rows _ _ _ _ _ _ _ _) as [[array|e] rest];
      cbn [fst snd] in *; repeat split; try lia; try assumption.
    + intros a _. now apply (Hr array).
    + discriminate.
Qed.

(** X9.  The array of a call that returns has the requested shape and as
    many values as that shape has elements. *)
Theorem unpacked_array_fills_its_shape (data : list string)
    (dtype : DataType.t) (shp : list nat) (packedBits targetBits : nat)
    (rtlsim : bool) (a : ndarray Z) (rest : list string) :
  unpack_innermost_dim_from_hex_string data dtype shp packedBits targetBits
    rtlsim = (Ok a, rest) ->
  shape a = shp /\ List.length (flat a) = size_of shp.
Proof.
  unfold unpack_innermost_dim_from_hex_string.
  destruct shp as [|d0 shp']; [discriminate|].
  set (shp := d0 :: shp').
  destruct (unpack_rows _ _ _ _ _ _ _ _) as [[array|e] rest'] eqn:E;
    [|discriminate].
  intros [= <- <-]. cbn [shape flat]. split; [reflexivity|].
  apply unpack_rows_returned in E. destruct E as (rows & -> & Hl & Hf).
  cbn [app]. rewrite (length_concat_rows rows _ Hf), Hl.
  symmetry. apply size_of_split. discriminate.
Qed.

Lemma unpacked_array_fills_its_shape_witness :
  shape (mk_ndarray [2; 2]%nat [1; 3; 0; 2]) = [2; 2]%nat
  /\ List.length (flat (mk_ndarray [2; 2]%nat [1; 3; 0; 2]))
     = size_of [2; 2]%nat.
Proof.
  apply (unpacked_array_fills_its_shape ["0x7"; "0x2"; "0x9"]%string
           (DataType.UINT 2) [2; 2]%nat 4 2 false _ ["0x9"%string]).
  reflexivity.
Defined.

(** X10.  When the words run out before the outer positions do, all of
    them decoding, the call raises the IndexError of [data[0]] and [data]
    is left empty. *)
Theorem short_sequence_is_an_index_error (data : list string)
    (dtype : DataType.t) (shp : list nat) (packedBits targetBits : nat)
    (rtlsim : bool) (rows : list (list Z)) :
  shp <> [] ->
  (List.length data < size_of (removelast shp))%nat ->
  Forall2 (fun w ar_list =>
             decode_word dtype (last shp 0%nat) packedBits targetBits rtlsim w
             = Ok ar_list) data rows ->
  unpack_innermost_dim_from_hex_string data dtype shp packedBits targetBits
    rtlsim = (Raise IndexError, []).
Proof.
  intros Hs Hlen Hrows. unfold unpack_innermost_dim_from_hex_string.
  destruct shp as [|d0 shp']; [congruence|].
  now rewrite (unpack_rows_exhausted _ _ _ _ _ data rows).
Qed.

Lemma short_sequence_is_an_index_error_witness :
  unpack_innermost_dim_from_hex_string ["0x7"]%string (DataType.UINT 2)
    [2; 2]%nat 4 2 false = (Raise IndexError, []).
Proof.
  apply (short_sequence_is_an_index_error ["0x7"]%string (DataType.UINT 2)
           [2; 2]%nat 4 2 false [[1; 3]]).
  - discriminate.
  - cbn. lia.
  - repeat constructor.
Defined.

(** X11.  The first word that does not decode ends the call with its
    exception: that word and the ones before it are gone from [data], the
    ones behind it are all still there. *)
Theorem bad_word_stops_the_unpacker (ws rest : list string) (w : string)
    (e : exn) (dtype : DataType.t) (shp : list nat) (packedBits
    targetBits : nat) (rtlsim : bool) (rows : list (list Z)) :
  shp <> [] ->
  (List.length ws < size_of (removelast shp))%nat ->
  Forall2 (fun w ar_list =>
             decode_word dtype (last shp 0%nat) packedBits targetBits rtlsim w
             = Ok ar_list) ws rows ->
  decode_word dtype (last shp 0%nat) packedBits targetBits rtlsim w = Raise e ->
  unpack_innermost_dim_from_hex_string (ws ++ w :: rest) dtype shp packedBits
    targetBits rtlsim = (Raise e, rest).
Proof.
  intros Hs Hlen Hrows Hw. unfold unpack_innermost_dim_from_hex_string.
  destruct shp as [|d0 shp']; [congruence|].
  now rewrite (unpack_rows_stopped _ _ _ _ _ ws rows w e).
Qed.

Lemma bad_word_stops_the_unpacker_witness :
  unpack_innermost_dim_from_hex_string ["0x7"; "oops"; "0x9"]%string
    (DataType.UINT 2) [3; 2]%nat 4 2 true = (Raise IndexError, ["0x9"%string]).
Proof.
  apply (bad_word_stops_the_unpacker ["0x7"]%string ["0x9"]%string "oops"
           IndexError (DataType.UINT 2) [3; 2]%nat 4 2 true [[3; 1]]).
  - discriminate.
  - cbn. lia.
  - repeat constructor.
  - reflexivity.
Defined.

(** ** Integers that are float32 values *)

Lemma float32_value_Qeq (x y : Q) :
  x == y -> float32_value x = float32_value y.
Proof. intros H. unfold float32_value. now rewrite (Qred_complete _ _ H). Qed.

(** Integers equal to float32 samples are stored by line 115 as they
    are. *)
Lemma float32_ints_of_samples (zs : list Z) : forall v : list Q,
  Forall2 Qeq (map inject_Z zs) v -> float32_row v -> float32_ints zs.
Proof.
  induction zs as [|z zs IH]; intros v HQ Hv; [constructor|].
  cbn [map] in HQ. inversion HQ as [|? x ? v' Hx HQ']; subst.
  inversion Hv as [|? ? Hfx Hv']; subst.
  constructor; [|now apply (IH v')].
  now rewrite (float32_value_Qeq _ _ Hx).
Qed.

Lemma size_of_odd_part (n : positive) :
  Pos.size_nat n = (trailing_zeros n + Pos.size_nat (odd_part n))%nat.
Proof.
  induction n as [n IH|n IH|]; cbn [Pos.size_nat trailing_zeros odd_part];
    lia.
Qed.

Lemma size_nat_lower_bound (p : positive) :
  2 ^ Z.of_nat (Pos.size_nat p) <= 2 * Z.pos p.
Proof.
  induction p as [p IH|p IH|]; cbn [Pos.size_nat];
    rewrite Nat2Z.inj_succ, Z.pow_succ_r by lia; lia.
Qed.

(** Every integer below 2^24 in absolute value is a float32 value: the
    samples of the domains of at most 24 bits, and the fields of at most
    24 bits. *)
Lemma small_integer_is_float32 (z : Z) :
  Z.abs z < 2 ^ 24 -> float32_value (inject_Z z) = true.
Proof.
  intros Hz. unfold float32_value.
  rewrite Qcanon.Qred_identity by apply Z.gcd_1_r.
  cbn [inject_Z Qnum Qden trailing_zeros odd_part Pos.eqb].
  assert (H : forall n, Z.pos n < 2 ^ 24 ->
            (Z.of_nat (Pos.size_nat (odd_part n)) <=? 24)
            && (-149 <=? Z.of_nat (trailing_zeros n) - Z.of_nat 0)
            && (Z.of_nat (trailing_zeros n) - Z.of_nat 0
                + Z.of_nat (Pos.size_nat (odd_part n)) <=? 128) = true).
  { intros n Hn.
    assert (Hs : (Pos.size_nat n <= 24)%nat).
    { pose proof (size_nat_lower_bound n) as Hb.
      destruct (Nat.le_gt_cases (Pos.size_nat n) 24) as [|Hgt]; [assumption|].
      assert (2 ^ 25 <= 2 ^ Z.of_nat (Pos.size_nat n))
        by (apply Z.pow_le_mono_r; lia).
      lia. }
    pose proof (size_of_odd_part n) as Ho.
    rewrite !andb_true_iff, !Z.leb_le. lia. }
  destruct z as [|n|n]; [reflexivity| |]; cbn [andb]; apply H; lia.
Qed.

(** ** Encoding, then decoding in rtlsim mode *)

Section RtlsimRoundTrip.

Variable float_pattern : Q -> Z.

Lemma rtlsim_adjust_restores (dtype : DataType.t) (v : list Q) :
  restored_by_rtlsim dtype = true ->
  legal dtype v ->
  Forall2 Qeq
    (map inject_Z (rtlsim_adjust dtype (map (field_value float_pattern dtype) v)))
    v.
Proof.
  intros Hd Hv. unfold rtlsim_adjust.
  destruct dtype as [| |w|w|]; [| | | |discriminate Hd];
    unfold DataType.INT2, DataType.INT32, DataType.eqb.
  - rewrite !map_map. induction Hv as [|x v Hx Hv IH]; constructor; [|exact IH].
    unfold field_value. cbn [stored_int DataType.bitwidth].
    cbn in Hx. apply orb_prop in Hx.
    destruct Hx as [Hx|Hx]; apply Qeq_bool_iff in Hx.
    + assert (Hb : bipolar_to_binary x == inject_Z 0)
        by (unfold bipolar_to_binary; rewrite Hx; reflexivity).
      rewrite (int_of_inject _ _ Hb), Hx. reflexivity.
    + assert (Hb : bipolar_to_binary x == inject_Z 1)
        by (unfold bipolar_to_binary; rewrite Hx; reflexivity).
      rewrite (int_of_inject _ _ Hb), Hx. reflexivity.
  - cbn [orb]. rewrite map_map.
    induction Hv as [|x v Hx Hv IH]; constructor; [|exact IH].
    apply field_value_nonnegative; [reflexivity|assumption|].
    destruct (allowed_BINARY x Hx) as [Hr He]. rewrite He.
    change 0%Q with (inject_Z 0). rewrite <- Zle_Qle. lia.
  - cbn [orb]. rewrite map_map.
    induction Hv as [|x v Hx Hv IH]; constructor; [|exact IH].
    apply field_value_nonnegative; [reflexivity|assumption|].
    destruct (allowed_UINT w x Hx) as [Hr He]. rewrite He.
    change 0%Q with (inject_Z 0). rewrite <- Zle_Qle. lia.
  - unfold restored_by_rtlsim in Hd. rewrite Hd. cbn [DataType.bitwidth].
    rewrite positive_nat_Z.
    rewrite !map_map. induction Hv as [|x v Hx Hv IH]; constructor; [|exact IH].
    rewrite (sign_correction_recovers_sample float_pattern w x Hx).
    destruct (allowed_INT w x Hx) as [_ He]. now symmetry.
Qed.

(** X12.  With [rtlsim] on, decoding what the encoder wrote for a legal row
    of float32 values of a bipolar, binary, unsigned, INT2 or INT32 domain
    gives the samples back in reverse order, the negative ones included;
    the integers returned are float32 values, so line 115 stores them as
    they are. *)
Theorem rtlsim_decoding_reverses_the_row (dtype : DataType.t) (v : list Q)
    (pad_to_nbits : Z) :
  restored_by_rtlsim dtype = true ->
  legal dtype v ->
  float32_row v ->
  natural_length v dtype <= padded_width pad_to_nbits ->
  padded_width pad_to_nbits mod 4 = 0 ->
  exists s zs,
    array2hexstring float_pattern v dtype pad_to_nbits "0x" = Ok s
    /\ unpack_innermost_dim_from_hex_string [s] dtype [List.length v]
         (Z.to_nat (padded_width pad_to_nbits)) (DataType.bitwidth dtype) true
       = (Ok (mk_ndarray [List.length v] zs), [])
    /\ float32_ints zs
    /\ Forall2 Qeq (map inject_Z zs) (rev v).
Proof.
  intros Hd Hv Hf Hle Hm.
  assert (HQ : Forall2 Qeq
                 (map inject_Z
                    (rtlsim_adjust dtype
                       (map (field_value float_pattern dtype) (rev v))))
                 (rev v))
    by (apply rtlsim_adjust_restores; [assumption|apply Forall_rev, Hv]).
  destruct (array2hexstring_accepts float_pattern v dtype pad_to_nbits Hv Hle Hm)
    as (digits & Henc & Hparse).
  exists (String "0" (String "x" digits)),
    (rtlsim_adjust dtype (map (field_value float_pattern dtype) (rev v))).
  split; [exact Henc|]. split.
  - rewrite unpack_one_row.
    rewrite (decode_word_fields _ _ _ _ _ _ _ Hparse).
    + unfold oriented, row_bits.
      replace (List.length v)
        with (List.length (map (stored_int float_pattern dtype) v))
        by apply length_map.
      rewrite fields_of_concat, map_map, length_map, <- map_rev. reflexivity.
    + apply uint_range.
    + apply bitwidth_positive.
    + unfold natural_length in Hle. lia.
  - split; [|exact HQ].
    apply (float32_ints_of_samples _ _ HQ). apply Forall_rev, Hf.
Qed.

End RtlsimRoundTrip.

Lemma rtlsim_decoding_reverses_the_row_witness :
  exists s zs,
    array2hexstring example_pattern [-2 # 1; 1 # 1; -1 # 1] DataType.INT2 8 "0x"
    = Ok s
    /\ unpack_innermost_dim_from_hex_string [s] DataType.INT2 [3%nat]
         (Z.to_nat (padded_width 8)) 2 true
       = (Ok (mk_ndarray [3%nat] zs), [])
    /\ float32_ints zs
    /\ Forall2 Qeq (map inject_Z zs) (rev [-2 # 1; 1 # 1; -1 # 1]).
Proof.
  apply (rtlsim_decoding_reverses_the_row example_pattern DataType.INT2
           [-2 # 1; 1 # 1; -1 # 1] 8).
  - reflexivity.
  - repeat constructor.
  - repeat constructor.
  - vm_compute. discriminate.
  - reflexivity.
Defined.

(** ** More on the tensor packer *)

Lemma Forall_row {A : Type} (P : A -> Prop) (n : nat) (buf : list A) (i : nat) :
  Forall P buf -> Forall P (row n buf i).
Proof.
  intros H. unfold row.
  rewrite <- (firstn_skipn (i * n) buf) in H. apply Forall_app in H.
  destruct H as [_ H].
  rewrite <- (firstn_skipn n (skipn (i * n) buf)) in H. apply Forall_app in H.
  tauto.
Qed.

Lemma length_row {A : Type} (n : nat) (buf : list A) (i count : nat) :
  List.length buf = (count * n)%nat -> (i < count)%nat ->
  List.length (row n buf i) = n.
Proof.
  intros Hl Hi. unfold row. rewrite length_firstn, length_skipn. nia.
Qed.

Lemma concat_rows_from {A : Type} (n : nat) (buf : list A) :
  forall count start,
  List.concat (map (row n buf) (seq start count))
  = firstn (count * n) (skipn (start * n) buf).
Proof.
  induction count as [|count IH]; intros start; [reflexivity|].
  cbn [seq map List.concat]. rewrite IH. unfold row.
  replace (S start * n)%nat with (n + start * n)%nat by lia.
  rewrite <- skipn_skipn.
  replace (S count * n)%nat with (n + count * n)%nat by lia.
  set (l := skipn (start * n) buf).
  rewrite <- (firstn_skipn n l) at 3.
  rewrite firstn_app.
  destruct (Nat.le_gt_cases n (List.length l)) as [Hle|Hgt].
  - rewrite length_firstn, Nat.min_l by assumption.
    replace (n + count * n - n)%nat with (count * n)%nat by lia.
    rewrite (firstn_all2 (n := (n + count * n)%nat) (firstn n l))
      by (rewrite length_firstn; lia).
    reflexivity.
  - rewrite (skipn_all2 (n := n) l) by lia.
    rewrite !firstn_nil, !app_nil_r.
    rewrite (firstn_all2 (n := n) l) by lia.
    symmetry. apply firstn_all2. lia.
Qed.

Lemma concat_rows {A : Type} (n : nat) (buf : list A) (count : nat) :
  List.length buf = (count * n)%nat ->
  List.concat (map (row n buf) (seq 0 count)) = buf.
Proof.
  intros Hl. rewrite concat_rows_from. cbn [Nat.mul skipn].
  apply firstn_all2. lia.
Qed.

Lemma map_rows_first_failure {A B : Type} (f : list A -> result B)
    (front : list (list A)) (cells : list B) (r : list A)
    (back : list (list A)) (e : exn) :
  Forall2 (fun r c => f r = Ok c) front cells ->
  f r = Raise e ->
  map_rows f (front ++ r :: back) = Raise e.
Proof.
  induction 1 as [|r0 c front cells Hr _ IH]; intros He; cbn [app map_rows].
  - now rewrite He.
  - now rewrite Hr, IH.
Qed.

Lemma length_map_rows {A B : Type} (f : list A -> result B)
    (rows : list (list A)) (cells : list B) :
  map_rows f rows = Ok cells -> List.length cells = List.length rows.
Proof.
  intros H. apply map_rows_returned in H. symmetry.
  exact (Forall2_length H).
Qed.

Section PackerCalls.

Variable float_pattern : Q -> Z.

(** X13.  The exception the packer raises is that of the first slice, in
    row-major order, which the row encoder refuses. *)
Theorem packer_raises_the_first_failure (a : ndarray Q) (dtype : DataType.t)
    (pad_to_nbits : Z) (i : nat) (cells : list string) (e : exn) :
  shape a <> [] ->
  (i < size_of (removelast (shape a)))%nat ->
  Forall2 (fun j c =>
             array2hexstring float_pattern
               (row (last (shape a) 0%nat) (flat a) j) dtype pad_to_nbits "0x"
             = Ok c)
    (seq 0 i) cells ->
  array2hexstring float_pattern (row (last (shape a) 0%nat) (flat a) i) dtype
    pad_to_nbits "0x" = Raise e ->
  pack_innermost_dim_as_hex_string float_pattern a dtype pad_to_nbits
  = Raise e.
Proof.
  intros Hs Hi Hfront He.
  unfold pack_innermost_dim_as_hex_string, apply_along_last_axis.
  destruct (shape a) as [|d0 shp'] eqn:Hshape; [congruence|].
  destruct (size_of (removelast (d0 :: shp'))) as [|count] eqn:Hcount; [lia|].
  replace (S count) with (i + S (count - i))%nat by lia.
  rewrite seq_app, map_app. cbn [seq map Nat.add].
  rewrite (map_rows_first_failure _ _ cells _ _ e); [reflexivity| |exact He].
  now apply Forall2_map_l.
Qed.

(** X14.  A packed tensor is regular: it has one cell for every position of
    its shape, and every cell has the same number of characters, the two of
    the prefix and one per four bits of the padded width. *)
Theorem packed_tensor_is_regular (a : ndarray Q) (dtype : DataType.t)
    (pad_to_nbits : Z) (b : ndarray string) :
  pack_innermost_dim_as_hex_string float_pattern a dtype pad_to_nbits = Ok b ->
  well_shaped b
  /\ Forall (fun c =>
               4 * Z.of_nat (String.length c) = 8 + padded_width pad_to_nbits)
       (flat b).
Proof.
  intros H. split; [|exact (cells_of_one_length _ _ _ _ _ H)].
  revert H. unfold pack_innermost_dim_as_hex_string, apply_along_last_axis.
  destruct (shape a) as [|d0 shp']; [discriminate|].
  destruct (size_of (removelast (d0 :: shp'))) as [|count] eqn:Hcount;
    [discriminate|].
  destruct (map_rows _ _) as [cells|e] eqn:Hrows; [|discriminate].
  cbn [bind]. intros [= <-]. unfold well_shaped. cbn [shape flat].
  apply length_map_rows in Hrows.
  now rewrite Hrows, length_map, length_seq.
Qed.

(** On a well-shaped legal tensor all slices have the same natural length,
    so they are accepted or refused together. *)
Lemma slices_of_legal_tensor (a : ndarray Q) (dtype : DataType.t) (i : nat) :
  shape a <> [] -> well_shaped a -> legal dtype (flat a) ->
  (i < size_of (removelast (shape a)))%nat ->
  let v := row (last (shape a) 0%nat) (flat a) i in
  legal dtype v
  /\ List.length v = last (shape a) 0%nat.
Proof.
  intros Hs Hw Hl Hi v. split; [now apply Forall_row|].
  apply (length_row _ _ _ (size_of (removelast (shape a)))); [|assumption].
  unfold well_shaped in Hw. now rewrite Hw, size_of_split.
Qed.

(** The three outcomes of the packer on a well-shaped legal tensor. *)
Lemma packer_outcome (a : ndarray Q) (dtype : DataType.t)
    (pad_to_nbits : Z) :
  shape a <> [] -> well_shaped a -> legal dtype (flat a) ->
  size_of (removelast (shape a)) <> 0%nat ->
  let bits := Z.of_nat (last (shape a) 0%nat * DataType.bitwidth dtype) in
  (bits <= padded_width pad_to_nbits ->
   padded_width pad_to_nbits mod 4 = 0 ->
   exists b,
     pack_innermost_dim_as_hex_string float_pattern a dtype pad_to_nbits = Ok b)
  /\ (padded_width pad_to_nbits < bits ->
      pack_innermost_dim_as_hex_string float_pattern a dtype pad_to_nbits
      = Raise PackingOverflow)
  /\ (bits <= padded_width pad_to_nbits ->
      padded_width pad_to_nbits mod 4 <> 0 ->
      pack_innermost_dim_as_hex_string float_pattern a dtype pad_to_nbits
      = Raise InterpretError).
Proof.
  intros Hs Hw Hl Hn bits.
  assert (Hrow : forall i, (i < size_of (removelast (shape a)))%nat ->
            legal dtype (row (last (shape a) 0%nat) (flat a) i)
            /\ natural_length (row (last (shape a) 0%nat) (flat a) i) dtype
               = bits).
  { intros i Hi.
    destruct (slices_of_legal_tensor a dtype i Hs Hw Hl Hi) as [Hv Hlen].
    split; [assumption|]. unfold natural_length, bits. now rewrite Hlen. }
  assert (H0 : (0 < size_of (removelast (shape a)))%nat) by lia.
  split; [|split].
  - intros Hfit Hm.
    assert (Hcells : forall count, (count <= size_of (removelast (shape a)))%nat ->
              forall start, (start + count <= size_of (removelast (shape a)))%nat ->
              exists cells,
                Forall2 (fun i c =>
                           array2hexstring float_pattern
                             (row (last (shape a) 0%nat) (flat a) i) dtype
                             pad_to_nbits "0x" = Ok c)
                  (seq start count) cells).
    { induction count as [|count IH]; intros Hc start Hsc.
      - exists []. constructor.
      - destruct (IH ltac:(lia) (S start) ltac:(lia)) as [cells Hcells].
        destruct (Hrow start ltac:(lia)) as [Hv Hnat].
        destruct (array2hexstring_accepts float_pattern _ dtype pad_to_nbits Hv)
          as (digits & Hd & _); [lia|assumption|].
        eexists (_ :: cells). constructor; [exact Hd|exact Hcells]. }
    destruct (Hcells _ (Nat.le_refl _) 0%nat ltac:(lia)) as [cells Hc].
    exists (mk_ndarray (removelast (shape a)) cells).
    unfold pack_innermost_dim_as_hex_string, apply_along_last_axis.
    destruct (shape a) as [|d0 shp'] eqn:Hshape; [congruence|].
    destruct (size_of (removelast (d0 :: shp'))) as [|count] eqn:Hcount;
      [congruence|].
    rewrite (map_rows_all _ _ cells); [reflexivity|].
    now apply Forall2_map_l.
  - intros Hlt. destruct (Hrow 0%nat H0) as [Hv Hnat].
    unfold pack_innermost_dim_as_hex_string, apply_along_last_axis.
    destruct (shape a) as [|d0 shp'] eqn:Hshape; [congruence|].
    destruct (size_of (removelast (d0 :: shp'))) as [|count] eqn:Hcount;
      [congruence|].
    cbn [seq map map_rows].
    rewrite array2hexstring_overflows; [reflexivity|assumption|lia].
  - intros Hfit Hm. destruct (Hrow 0%nat H0) as [Hv Hnat].
    unfold pack_innermost_dim_as_hex_string, apply_along_last_axis.
    destruct (shape a) as [|d0 shp'] eqn:Hshape; [congruence|].
    destruct (size_of (removelast (d0 :: shp'))) as [|count] eqn:Hcount;
      [congruence|].
    cbn [seq map map_rows].
    rewrite array2hexstring_legal by assumption.
    destruct (Z.geb_spec (padded_width pad_to_nbits)
                (natural_length (row (last (d0 :: shp') 0%nat) (flat a) 0) dtype));
      [|lia].
    rewrite hex_ragged; [reflexivity|].
    intros Hz. apply Hm.
    rewrite <- (hex_of_fitting_row float_pattern dtype
                  (row (last (d0 :: shp') 0%nat) (flat a) 0) pad_to_nbits)
      by lia.
    apply (f_equal Z.of_nat) in Hz. now rewrite Nat2Z.inj_mod in Hz.
Qed.

(** X15.  A well-shaped legal tensor of float32 values with at least one
    slice is packed exactly when the padded width covers the bits of a
    slice and is a multiple of four; when it does not cover them the packer
    raises the overflow exception, and when it is not a multiple of four,
    InterpretError. *)
Theorem packer_accepts_iff (a : ndarray Q) (dtype : DataType.t)
    (pad_to_nbits : Z) :
  shape a <> [] -> well_shaped a -> legal dtype (flat a) ->
  float32_row (flat a) ->
  size_of (removelast (shape a)) <> 0%nat ->
  let bits := Z.of_nat (last (shape a) 0%nat * DataType.bitwidth dtype) in
  (bits <= padded_width pad_to_nbits ->
   padded_width pad_to_nbits mod 4 = 0 ->
   exists b,
     pack_innermost_dim_as_hex_string float_pattern a dtype pad_to_nbits = Ok b)
  /\ (padded_width pad_to_nbits < bits ->
      pack_innermost_dim_as_hex_string float_pattern a dtype pad_to_nbits
      = Raise PackingOverflow)
  /\ (bits <= padded_width pad_to_nbits ->
      padded_width pad_to_nbits mod 4 <> 0 ->
      pack_innermost_dim_as_hex_string float_pattern a dtype pad_to_nbits
      = Raise InterpretError).
Proof. intros Hs Hw Hl _. now apply packer_outcome. Qed.

End PackerCalls.

Lemma packer_raises_the_first_failure_witness :
  pack_innermost_dim_as_hex_string example_pattern
    (mk_ndarray [3; 2]%nat [1 # 1; 0 # 1; 0 # 1; 7 # 1; 1 # 1; 1 # 1])
    DataType.BINARY 4
  = Raise AssertionError.
Proof.
  apply (packer_raises_the_first_failure example_pattern
           (mk_ndarray [3; 2]%nat [1 # 1; 0 # 1; 0 # 1; 7 # 1; 1 # 1; 1 # 1])
           DataType.BINARY 4 1 ["0x2"%string] AssertionError).
  - discriminate.
  - cbn. lia.
  - repeat constructor.
  - reflexivity.
Defined.

Lemma packed_tensor_is_regular_witness :
  well_shaped (mk_ndarray [2%nat] ["0x0e"; "0x06"]%string)
  /\ Forall (fun c => 4 * Z.of_nat (String.length c) = 8 + padded_width 8)
       ["0x0e"; "0x06"]%string.
Proof.
  apply (packed_tensor_is_regular example_pattern
           (mk_ndarray [2; 4]%nat
              [1 # 1; 1 # 1; 1 # 1; 0 # 1; 0 # 1; 1 # 1; 1 # 1; 0 # 1])
           DataType.BINARY 8 (mk_ndarray [2%nat] ["0x0e"; "0x06"]%string)).
  reflexivity.
Defined.

Lemma packer_accepts_iff_witness :
  pack_innermost_dim_as_hex_string example_pattern
    (mk_ndarray [2; 3]%nat [1 # 1; 2 # 1; 3 # 1; 0 # 1; 1 # 1; 2 # 1])
    (DataType.UINT 2) 6
  = Raise InterpretError.
Proof.
  apply (proj2 (proj2 (packer_accepts_iff example_pattern
           (mk_ndarray [2; 3]%nat [1 # 1; 2 # 1; 3 # 1; 0 # 1; 1 # 1; 2 # 1])
           (DataType.UINT 2) 6
           ltac:(discriminate) ltac:(reflexivity) ltac:(repeat constructor)
           ltac:(repeat constructor) ltac:(discriminate)))).
  - vm_compute. discriminate.
  - vm_compute. discriminate.
Defined.

(** ** Python's hex *)

Lemma hex_char_facts (d : Z) :
  0 <= d < 16 ->
  Py.is_lower_hex (Python.hex_char d) = true
  /\ Py.hex_value (Python.hex_char d) = Some d.
Proof.
  intros H.
  assert (Hd : d = 0 \/ d = 1 \/ d = 2 \/ d = 3 \/ d = 4 \/ d = 5 \/ d = 6
               \/ d = 7 \/ d = 8 \/ d = 9 \/ d = 10 \/ d = 11 \/ d = 12
               \/ d = 13 \/ d = 14 \/ d = 15) by lia.
  repeat (destruct Hd as [->|Hd]; [split; reflexivity|]).
  subst d. split; reflexivity.
Qed.

Lemma all_chars_app (p : ascii -> bool) (s t : string) :
  all_chars p (s ++ t) = all_chars p s && all_chars p t.
Proof.
  induction s as [|c s IH]; [reflexivity|].
  cbn [String.append all_chars]. now rewrite IH, andb_assoc.
Qed.

(** One more digit behind a string of digits. *)
Lemma scan16_snoc (c : ascii) (d : Z) (s : string) :
  Py.is_lower_hex c = true ->
  Py.hex_value c = Some d ->
  all_chars Py.is_lower_hex s = true ->
  forall seen acc v,
  Py.scan16 s false true acc = Some v ->
  Py.scan16 (s ++ String c EmptyString) false seen acc = Some (16 * v + d).
Proof.
  intros Hc Hd. destruct (lower_hex_facts c Hc) as (_ & Hus & _).
  induction s as [|c' s IH]; intros Hs seen acc v Hv.
  - cbn in Hv. injection Hv as <-.
    cbn [String.append Py.scan16]. rewrite Hus, Hd. reflexivity.
  - cbn in Hs. apply andb_prop in Hs. destruct Hs as [Hc' Hs].
    destruct (lower_hex_facts c' Hc') as (_ & Hus' & _ & _ & _ & _ & d' & Hd').
    cbn [String.append Py.scan16] in Hv |- *. rewrite Hus', Hd' in Hv |- *.
    now apply IH.
Qed.

Lemma hex_digits_read (fuel : nat) : forall n,
  0 < n < 2 ^ Z.of_nat fuel ->
  all_chars Py.is_lower_hex (Python.hex_digits fuel n) = true
  /\ Python.hex_digits fuel n <> EmptyString
  /\ forall seen, Py.scan16 (Python.hex_digits fuel n) false seen 0 = Some n.
Proof.
  induction fuel as [|fuel IH]; intros n Hn; [cbn in Hn; lia|].
  rewrite Nat2Z.inj_succ, Z.pow_succ_r in Hn by lia.
  destruct (hex_char_facts (n mod 16)) as [Hc Hd];
    [apply Z.mod_pos_bound; lia|].
  cbn [Python.hex_digits]. destruct (Z.ltb_spec n 16) as [Hlt|Hge].
  - cbn [String.append all_chars]. rewrite Hc. repeat split; [discriminate|].
    intros seen.
    pose proof (scan16_snoc _ _ EmptyString Hc Hd eq_refl seen 0 0 eq_refl)
      as Hs.
    cbn [String.append] in Hs. rewrite Hs, Z.mod_small by lia. reflexivity.
  - pose proof (Z.div_mod n 16 ltac:(lia)) as Hdm.
    pose proof (Z.mod_pos_bound n 16 ltac:(lia)) as Hm.
    destruct (IH (n / 16)) as (Ha & Hne & Hs); [lia|].
    rewrite all_chars_app, Ha. cbn [all_chars]. rewrite Hc.
    repeat split.
    + destruct (Python.hex_digits fuel (n / 16)); [congruence|discriminate].
    + intros seen.
      rewrite (scan16_snoc _ _ _ Hc Hd Ha seen 0 (n / 16) (Hs true)).
      f_equal. lia.
Qed.

Lemma size_nat_bound (p : positive) : Z.pos p < 2 ^ Z.of_nat (Pos.size_nat p).
Proof.
  induction p as [p IH|p IH|]; cbn [Pos.size_nat];
    rewrite Nat2Z.inj_succ, Z.pow_succ_r by lia; lia.
Qed.

Lemma lower_hex_without_x (s : string) :
  all_chars Py.is_lower_hex s = true ->
  all_chars (fun c => negb (Ascii.eqb c "x")) s = true.
Proof.
  induction s as [|c s IH]; [reflexivity|]. cbn [all_chars]. intros H.
  apply andb_prop in H. destruct H as [Hc Hs].
  destruct (lower_hex_facts c Hc) as (_ & _ & Hx & _). now rewrite Hx, IH.
Qed.

(** What the unpacker reads in a number written by [hex]: the sign is left
    in front of the [x]. *)
Lemma parse_hex (n : Z) : parse_word (Python.hex n) = Ok (Z.abs n).
Proof.
  destruct n as [|p|p]; [reflexivity| |];
    destruct (hex_digits_read (Pos.size_nat p) (Z.pos p)) as (Ha & Hne & Hs);
    try (split; [lia|apply size_nat_bound]).
  - apply parse_rendered; [assumption|apply Hs].
  - unfold parse_word, Python.hex. cbn [String.append Py.split].
    change (Ascii.eqb "-" "x") with false. change (Ascii.eqb "0" "x") with false.
    change (Ascii.eqb "x" "x") with true. cbv iota.
    rewrite split_without_sep by now apply lower_hex_without_x.
    cbn [nth_error]. rewrite int16_lower_hex, Hs by assumption. reflexivity.
Qed.

(** ** From the simulation to an array *)

Lemma decode_word_of_number (dtype : DataType.t) (inner packedBits
    targetBits : nat) (rtlsim : bool) (w w' : string) :
  parse_word w = parse_word w' ->
  decode_word dtype inner packedBits targetBits rtlsim w
  = decode_word dtype inner packedBits targetBits rtlsim w'.
Proof. intros H. unfold decode_word, raw_values. now rewrite H. Qed.

Lemma unpack_rows_of_numbers (dtype : DataType.t) (inner packedBits
    targetBits : nat) (rtlsim : bool) (ws ws' : list string) :
  Forall2 (fun w w' => parse_word w = parse_word w') ws ws' ->
  forall count array,
  fst (unpack_rows dtype inner packedBits targetBits rtlsim count array ws)
  = fst (unpack_rows dtype inner packedBits targetBits rtlsim count array ws').
Proof.
  induction 1 as [|w w' ws ws' Hw _ IH]; intros count array.
  - reflexivity.
  - destruct count as [|count]; [reflexivity|].
    cbn [unpack_rows pop_front].
    rewrite (decode_word_of_number _ _ _ _ _ w w' Hw).
    destruct (decode_word dtype inner packedBits targetBits rtlsim w');
      [apply IH|reflexivity].
Qed.

(** X16.  The sign of a number handed to [rtlsim_output_to_npy] is lost:
    [hex] writes it in front of the [0x], and the unpacker reads what
    follows the [x]. *)
Theorem output_sign_is_ignored (output : list Z) (path : string)
    (dtype : DataType.t) (shp : list nat) (packedBits targetBits : nat) :
  rtlsim_output_to_npy output path dtype shp packedBits targetBits
  = rtlsim_output_to_npy (map Z.abs output) path dtype shp packedBits
      targetBits.
Proof.
  unfold rtlsim_output_to_npy, unpack_innermost_dim_from_hex_string.
  destruct shp as [|d0 shp']; [reflexivity|].
  assert (H : Forall2 (fun w w' => parse_word w = parse_word w')
                (map Python.hex output) (map Python.hex (map Z.abs output))).
  { induction output as [|n output IH]; cbn [map]; constructor; [|exact IH].
    now rewrite !parse_hex, Z.abs_idemp. }
  pose proof (unpack_rows_of_numbers dtype (last (d0 :: shp') 0%nat) packedBits
                targetBits true _ _ H (size_of (removelast (d0 :: shp'))) [])
    as Heq.
  destruct (unpack_rows _ _ _ _ _ _ _ (map Python.hex output)) as [r1 d1].
  destruct (unpack_rows _ _ _ _ _ _ _ (map Python.hex (map Z.abs output)))
    as [r2 d2].
  cbn [fst] in Heq. subst r2. destruct r1; reflexivity.
Qed.

(** The array saved for numbers whose fields [packedBits] covers. *)
Lemma rtlsim_output_rows (output : list Z) (path : string)
    (dtype : DataType.t) (shp : list nat) (packedBits targetBits : nat) :
  shp <> [] ->
  (size_of (removelast shp) <= List.length output)%nat ->
  (0 < targetBits)%nat ->
  (last shp 0%nat * targetBits <= packedBits)%nat ->
  rtlsim_output_to_npy output path dtype shp packedBits targetBits
  = Ok (path,
        mk_ndarray shp
          (List.concat
             (map (fun n =>
                     rtlsim_adjust dtype
                       (fields_of (Z.abs n) targetBits (last shp 0%nat)))
                (firstn (size_of (removelast shp)) output)))).
Proof.
  intros Hs Hlen Htb Hpb. unfold rtlsim_output_to_npy.
  rewrite (unpack_all_decoded _ dtype shp packedBits targetBits true
             (map (fun n =>
                     rtlsim_adjust dtype
                       (fields_of (Z.abs n) targetBits (last shp 0%nat)))
                (firstn (size_of (removelast shp)) output)));
    [reflexivity|assumption|now rewrite length_map|].
  rewrite firstn_map.
  induction (firstn (size_of (removelast shp)) output) as [|n ns IH];
    cbn [map]; constructor; [|exact IH].
  apply (decode_word_fields dtype _ _ _ true _ (Z.abs n));
    [apply parse_hex|apply Z.abs_nonneg|assumption|assumption].
Qed.

(** X17.  When the simulation gave at least one number per outer position
    and [packedBits] covers the fields of a row, the values of the array
    are, number by number, the fields of [targetBits] bits from the least
    significant end on, with the corrections of the domain; when these
    values are float32 values, which line 115 stores as they are, the array
    handed to [np.save] has the wanted shape and holds exactly them. *)
Theorem saved_array_holds_the_fields (output : list Z) (path : string)
    (dtype : DataType.t) (shp : list nat) (packedBits targetBits : nat) :
  shp <> [] ->
  (size_of (removelast shp) <= List.length output)%nat ->
  (0 < targetBits)%nat ->
  (last shp 0%nat * targetBits <= packedBits)%nat ->
  let values :=
    List.concat
      (map (fun n =>
              rtlsim_adjust dtype
                (fields_of (Z.abs n) targetBits (last shp 0%nat)))
         (firstn (size_of (removelast shp)) output)) in
  float32_ints values ->
  rtlsim_output_to_npy output path dtype shp packedBits targetBits
  = Ok (path, mk_ndarray shp values).
Proof. intros Hs Hlen Htb Hpb values _. now apply rtlsim_output_rows. Qed.

Lemma saved_array_holds_the_fields_witness :
  rtlsim_output_to_npy [14; -9; 255] "out.npy" DataType.INT2 [2; 2]%nat 4 2
  = Ok ("out.npy"%string, mk_ndarray [2; 2]%nat [-2; -1; 1; -2]).
Proof.
  apply (saved_array_holds_the_fields [14; -9; 255] "out.npy" DataType.INT2
           [2; 2]%nat 4 2).
  - discriminate.
  - cbn. lia.
  - lia.
  - cbn. lia.
  - repeat constructor.
Defined.

(** ** From an array to the simulation, and back *)

Lemma reverse_loop_reverses (inp : list Q) : forall inp_rev,
  reverse_loop (List.length inp) inp inp_rev = Ok (inp_rev ++ rev inp).
Proof.
  induction inp as [|x inp IH] using rev_ind; intros inp_rev.
  - cbn. now rewrite app_nil_r.
  - rewrite length_app, Nat.add_comm. cbn [List.length Nat.add reverse_loop].
    destruct (inp ++ [x]) as [|y l] eqn:Hl.
    + now destruct inp.
    + rewrite <- Hl, removelast_last, last_last, IH, rev_app_distr.
      cbn [rev app]. now rewrite <- app_assoc.
Qed.

Lemma row_of_rev {A : Type} (n : nat) (buf : list A) (count j : nat) :
  List.length buf = (count * n)%nat -> (j < count)%nat ->
  row n (rev buf) j = rev (row n buf (count - 1 - j)).
Proof.
  intros Hl Hj. unfold row.
  rewrite skipn_rev, firstn_rev, length_firstn, skipn_firstn_comm. f_equal.
  rewrite Hl.
  replace (Nat.min (count * n - j * n) (count * n) - n)%nat
    with ((count - 1 - j) * n)%nat by nia.
  f_equal. nia.
Qed.

Lemma rev_map_seq {A : Type} (f : nat -> A) (n : nat) :
  rev (map f (seq 0 n)) = map (fun i => f (n - 1 - i)%nat) (seq 0 n).
Proof.
  induction n as [|n IH]; [reflexivity|].
  rewrite seq_S at 1. rewrite map_app, rev_app_distr.
  cbn [map rev app Nat.add seq].
  rewrite IH, <- seq_shift, map_map. f_equal.
  - f_equal. lia.
  - apply map_ext. intros i. f_equal. lia.
Qed.

Lemma Forall2_choice {A B : Type} (R : A -> B -> Prop) (l : list A) :
  (forall x, In x l -> exists y, R x y) -> exists l', Forall2 R l l'.
Proof.
  induction l as [|x l IH]; intros H.
  - exists []. constructor.
  - destruct (H x (or_introl eq_refl)) as [y Hy].
    destruct IH as [l' Hl']; [intros z Hz; apply H; now right|].
    exists (y :: l'). now constructor.
Qed.

Lemma Forall2_impl_in {A B : Type} (R1 R2 : A -> B -> Prop) (l : list A)
    (l' : list B) :
  (forall a b, In a l -> R1 a b -> R2 a b) ->
  Forall2 R1 l l' -> Forall2 R2 l l'.
Proof.
  intros H HF. induction HF as [|a b l l' Hab _ IH]; constructor.
  - apply H; [now left|assumption].
  - apply IH. intros x y Hx. apply H. now right.
Qed.

Lemma Forall2_concat_rows {A B : Type} (R : A -> B -> Prop)
    (f : nat -> list A) (g : nat -> list B) (js : list nat) :
  (forall j, In j js -> Forall2 R (f j) (g j)) ->
  Forall2 R (List.concat (map f js)) (List.concat (map g js)).
Proof.
  induction js as [|j js IH]; intros H; cbn [map List.concat]; [constructor|].
  apply Forall2_app; [apply H; now left|].
  apply IH. intros k Hk. apply H. now right.
Qed.

Lemma read_cells_numbers (g : nat -> Z) (js : list nat) (cells : list string) :
  Forall2 (fun j c => Py.int16 (Python.drop 2 c) = Some (g j)) js cells ->
  read_cells cells = Ok (map g js).
Proof.
  induction 1 as [|j c js cells Hc _ IH]; [reflexivity|].
  cbn [read_cells map]. now rewrite Hc, IH.
Qed.

Section Pipeline.

Variable float_pattern : Q -> Z.

Lemma row_number_bits (dtype : DataType.t) (v : list Q) :
  row_number float_pattern dtype v
  = BitArray.uint (row_bits float_pattern dtype v).
Proof. symmetry. apply (uint_row_bits_from float_pattern dtype v []). Qed.

Lemma row_number_nonnegative (dtype : DataType.t) (v : list Q) :
  0 <= row_number float_pattern dtype v.
Proof. rewrite row_number_bits. apply uint_range. Qed.

(** The fields of the number of a row are the fields of its samples, the
    last sample first. *)
Lemma fields_of_row_number (dtype : DataType.t) (v : list Q) :
  fields_of (row_number float_pattern dtype v) (DataType.bitwidth dtype)
    (List.length v)
  = map (field_value float_pattern dtype) (rev v).
Proof.
  rewrite row_number_bits. unfold row_bits.
  replace (List.length v)
    with (List.length (map (stored_int float_pattern dtype) v))
    by apply length_map.
  now rewrite fields_of_concat, map_map, <- map_rev.
Qed.

(** An accepted row: its digits are read back as the number of the row,
    by the unpacker and by [int(x[2:], 16)]. *)
Lemma array2hexstring_number (v : list Q) (dtype : DataType.t)
    (pad_to_nbits : Z) :
  legal dtype v ->
  natural_length v dtype <= padded_width pad_to_nbits ->
  padded_width pad_to_nbits mod 4 = 0 ->
  exists c,
    array2hexstring float_pattern v dtype pad_to_nbits "0x" = Ok c
    /\ parse_word c = Ok (row_number float_pattern dtype v)
    /\ Py.int16 (Python.drop 2 c) = Some (row_number float_pattern dtype v).
Proof.
  intros Hv Hle Hm. rewrite array2hexstring_legal by assumption.
  destruct (Z.geb_spec (padded_width pad_to_nbits) (natural_length v dtype));
    [|lia].
  set (bits := BitArray.zeros _ ++ row_bits float_pattern dtype v).
  assert (Hlen : Z.of_nat (List.length bits) = padded_width pad_to_nbits).
  { unfold bits, BitArray.zeros.
    rewrite length_app, repeat_length, Nat2Z.inj_add, length_row_bits. lia. }
  assert (H4 : 4 <= padded_width pad_to_nbits) by (unfold padded_width; lia).
  destruct (hex_nibbles (Z.to_nat (padded_width pad_to_nbits / 4)) bits)
    as (digits & Hd & Hl & Hc & Hs).
  { pose proof (Z.div_mod (padded_width pad_to_nbits) 4). lia. }
  assert (0 < padded_width pad_to_nbits / 4) by (apply Z.div_str_pos; lia).
  assert (Hscan : Py.scan16 digits false false 0
                  = Some (row_number float_pattern dtype v)).
  { rewrite Hs.
    destruct (Nat.eqb_spec (Z.to_nat (padded_width pad_to_nbits / 4)) 0); [lia|].
    cbn [orb negb]. f_equal. unfold bits.
    rewrite uint_app, uint_zeros, row_number_bits. lia. }
  exists (String "0" (String "x" digits)). rewrite Hd. cbn [bind].
  split; [reflexivity|]. split; [now apply parse_rendered|].
  cbn [Python.drop]. rewrite int16_lower_hex; [assumption|assumption|].
  intros ->. cbn in Hl. lia.
Qed.

(** The cells of a packed legal tensor, slice by slice. *)
Lemma encoded_slices (a : ndarray Q) (dtype : DataType.t) (pad_to_nbits : Z) :
  shape a <> [] -> well_shaped a -> legal dtype (flat a) ->
  size_of (removelast (shape a)) <> 0%nat ->
  Z.of_nat (last (shape a) 0%nat * DataType.bitwidth dtype)
  <= padded_width pad_to_nbits ->
  padded_width pad_to_nbits mod 4 = 0 ->
  exists cells,
    pack_innermost_dim_as_hex_string float_pattern a dtype pad_to_nbits
    = Ok (mk_ndarray (removelast (shape a)) cells)
    /\ Forall2
         (fun i c =>
            parse_word c
            = Ok (row_number float_pattern dtype
                    (row (last (shape a) 0%nat) (flat a) i))
            /\ Py.int16 (Python.drop 2 c)
               = Some (row_number float_pattern dtype
                         (row (last (shape a) 0%nat) (flat a) i)))
         (seq 0 (size_of (removelast (shape a)))) cells.
Proof.
  intros Hs Hw Hl Hn Hfit Hm.
  destruct (Forall2_choice
              (fun i c =>
                 array2hexstring float_pattern
                   (row (last (shape a) 0%nat) (flat a) i) dtype pad_to_nbits
                   "0x" = Ok c
                 /\ parse_word c
                    = Ok (row_number float_pattern dtype
                            (row (last (shape a) 0%nat) (flat a) i))
                 /\ Py.int16 (Python.drop 2 c)
                    = Some (row_number float_pattern dtype
                              (row (last (shape a) 0%nat) (flat a) i)))
              (seq 0 (size_of (removelast (shape a))))) as [cells Hcells].
  { intros i Hi. apply in_seq in Hi.
    destruct (slices_of_legal_tensor a dtype i Hs Hw Hl) as [Hv Hlen]; [lia|].
    apply array2hexstring_number; [assumption| |assumption].
    unfold natural_length. now rewrite Hlen. }
  exists cells. split.
  - unfold pack_innermost_dim_as_hex_string, apply_along_last_axis.
    destruct (shape a) as [|d0 shp'] eqn:Hshape; [congruence|].
    destruct (size_of (removelast (d0 :: shp'))) as [|count] eqn:Hcount;
      [congruence|].
    rewrite (map_rows_all _ _ cells); [reflexivity|].
    apply Forall2_map_l.
    eapply Forall2_impl; [|exact Hcells]. cbv beta. tauto.
  - eapply Forall2_impl; [|exact Hcells]. cbv beta. tauto.
Qed.

Section Load.

Variable np_load : string -> result (ndarray Q).

(** The numbers handed to the simulation for a legal array. *)
Lemma rtlsim_input_rows (input_file : string) (inp : ndarray Q)
    (dtype : DataType.t) (pad_to_nbits : Z) :
  np_load input_file = Ok inp ->
  shape inp <> [] -> well_shaped inp -> legal dtype (flat inp) ->
  size_of (removelast (shape inp)) <> 0%nat ->
  Z.of_nat (last (shape inp) 0%nat * DataType.bitwidth dtype)
  <= padded_width pad_to_nbits ->
  padded_width pad_to_nbits mod 4 = 0 ->
  npy_to_rtlsim_input float_pattern np_load input_file dtype pad_to_nbits
  = Ok (map (fun i =>
               row_number float_pattern dtype
                 (rev (row (last (shape inp) 0%nat) (flat inp) i)))
          (seq 0 (size_of (removelast (shape inp))))).
Proof.
  intros Hload Hs Hw Hl Hn Hfit Hm. unfold npy_to_rtlsim_input.
  rewrite Hload. cbn [bind]. rewrite reverse_loop_reverses. cbn [bind app].
  destruct (encoded_slices (mk_ndarray (shape inp) (rev (flat inp))) dtype
              pad_to_nbits) as (cells & Hpack & Hcells); cbn [shape flat];
    try assumption.
  { unfold well_shaped. cbn [shape flat]. now rewrite length_rev. }
  { now apply Forall_rev. }
  cbn [shape flat] in Hpack, Hcells. rewrite Hpack. cbn [bind flat].
  rewrite (read_cells_numbers
             (fun j => row_number float_pattern dtype
                         (row (last (shape inp) 0%nat) (rev (flat inp)) j))
             (seq 0 (size_of (removelast (shape inp))))).
  - cbn [bind]. f_equal. rewrite rev_map_seq. apply map_ext_in.
    intros i Hi. apply in_seq in Hi. f_equal.
    rewrite (row_of_rev _ _ (size_of (removelast (shape inp)))).
    + do 2 f_equal. lia.
    + unfold well_shaped in Hw. now rewrite Hw, size_of_split.
    + lia.
  - eapply Forall2_impl; [|exact Hcells]. cbv beta. tauto.
Qed.

(** X18.  For a loaded legal array of float32 values whose rows the padded
    width covers in whole digits, [npy_to_rtlsim_input] returns one number
    per row, in the order of the rows: the number of the row read
    backwards, its last sample most significant. *)
Theorem rtlsim_input_numbers (input_file : string) (inp : ndarray Q)
    (dtype : DataType.t) (pad_to_nbits : Z) :
  np_load input_file = Ok inp ->
  shape inp <> [] -> well_shaped inp -> legal dtype (flat inp) ->
  float32_row (flat inp) ->
  size_of (removelast (shape inp)) <> 0%nat ->
  Z.of_nat (last (shape inp) 0%nat * DataType.bitwidth dtype)
  <= padded_width pad_to_nbits ->
  padded_width pad_to_nbits mod 4 = 0 ->
  npy_to_rtlsim_input float_pattern np_load input_file dtype pad_to_nbits
  = Ok (map (fun i =>
               row_number float_pattern dtype
                 (rev (row (last (shape inp) 0%nat) (flat inp) i)))
          (seq 0 (size_of (removelast (shape inp))))).
Proof. intros Hload Hs Hw Hl _. now apply rtlsim_input_rows. Qed.

(** X19.  The two adapters are inverse to each other on the domains the
    rtlsim branch restores: the numbers [npy_to_rtlsim_input] makes of a
    loaded legal array of float32 values are turned by
    [rtlsim_output_to_npy], called with the shape of the array, the padded
    width and the width of the domain, into the samples of the array, in
    their order; the integers it decodes are float32 values, so line 115
    stores them as they are. *)
Theorem simulation_round_trip (input_file path : string) (inp : ndarray Q)
    (dtype : DataType.t) (pad_to_nbits : Z) :
  np_load input_file = Ok inp ->
  restored_by_rtlsim dtype = true ->
  shape inp <> [] -> well_shaped inp -> legal dtype (flat inp) ->
  float32_row (flat inp) ->
  size_of (removelast (shape inp)) <> 0%nat ->
  Z.of_nat (last (shape inp) 0%nat * DataType.bitwidth dtype)
  <= padded_width pad_to_nbits ->
  padded_width pad_to_nbits mod 4 = 0 ->
  exists ns zs,
    npy_to_rtlsim_input float_pattern np_load input_file dtype pad_to_nbits
    = Ok ns
    /\ rtlsim_output_to_npy ns path dtype (shape inp)
         (Z.to_nat (padded_width pad_to_nbits)) (DataType.bitwidth dtype)
       = Ok (path, mk_ndarray (shape inp) zs)
    /\ float32_ints zs
    /\ Forall2 Qeq (map inject_Z zs) (flat inp).
Proof.
  intros Hload Hd Hs Hw Hl Hf32 Hn Hfit Hm.
  set (inner := last (shape inp) 0%nat) in *.
  set (count := size_of (removelast (shape inp))) in *.
  eexists. eexists. split; [|split].
  - apply (rtlsim_input_rows input_file inp); assumption.
  - apply rtlsim_output_rows;
      [assumption|now rewrite length_map, length_seq
      |apply bitwidth_positive|fold inner; lia].
  - match goal with
    | |- _ /\ ?G =>
        enough (HQ : G)
          by (split; [exact (float32_ints_of_samples _ _ HQ Hf32)|exact HQ])
    end.
    fold count inner.
    rewrite firstn_all2 by (rewrite length_map, length_seq; lia).
    rewrite map_map, concat_map, map_map.
    assert (Hbuf : List.length (flat inp) = (count * inner)%nat).
    { unfold well_shaped in Hw. now rewrite Hw, size_of_split. }
    match goal with
    | |- Forall2 _ ?l _ =>
        enough (HF : Forall2 Qeq l
                       (List.concat (map (row inner (flat inp)) (seq 0 count))))
          by (now rewrite (concat_rows inner (flat inp) count Hbuf) in HF)
    end.
    apply Forall2_concat_rows. intros i Hi. apply in_seq in Hi.
    destruct (slices_of_legal_tensor inp dtype i Hs Hw Hl) as [Hv Hlen];
      [fold count; lia|]. fold inner in Hv, Hlen.
    rewrite Z.abs_eq by apply row_number_nonnegative.
    pose proof (fields_of_row_number dtype (rev (row inner (flat inp) i)))
      as Hf.
    rewrite length_rev, Hlen, rev_involutive in Hf. rewrite Hf.
    now apply rtlsim_adjust_restores.
Qed.

End Load.

(** X20.  A packed tensor is unpacked to the tensor: for an integer
    domain and a legal array of float32 values without a negative sample
    whose rows the padded width covers in whole digits, unpacking the cells
    of the packed array, with [rtlsim] off, the shape of the array, the
    padded width and the width of the domain, uses up the cells and returns
    the samples in their order; the integers decoded are float32 values,
    so line 115 stores them as they are. *)
Theorem packed_tensor_is_unpacked (a : ndarray Q) (dtype : DataType.t)
    (pad_to_nbits : Z) :
  DataType.is_integer dtype = true ->
  shape a <> [] -> well_shaped a -> legal dtype (flat a) ->
  float32_row (flat a) ->
  Forall (fun x => (0 <= x)%Q) (flat a) ->
  size_of (removelast (shape a)) <> 0%nat ->
  Z.of_nat (last (shape a) 0%nat * DataType.bitwidth dtype)
  <= padded_width pad_to_nbits ->
  padded_width pad_to_nbits mod 4 = 0 ->
  exists b zs,
    pack_innermost_dim_as_hex_string float_pattern a dtype pad_to_nbits = Ok b
    /\ unpack_innermost_dim_from_hex_string (flat b) dtype (shape a)
         (Z.to_nat (padded_width pad_to_nbits)) (DataType.bitwidth dtype) false
       = (Ok (mk_ndarray (shape a) zs), [])
    /\ float32_ints zs
    /\ Forall2 Qeq (map inject_Z zs) (flat a).
Proof.
  intros Hi Hs Hw Hl Hf32 Hpos Hn Hfit Hm.
  destruct (encoded_slices a dtype pad_to_nbits Hs Hw Hl Hn Hfit Hm)
    as (cells & Hpack & Hcells).
  set (inner := last (shape a) 0%nat) in *.
  set (count := size_of (removelast (shape a))) in *.
  assert (Hcount : List.length cells = count).
  { rewrite <- (Forall2_length Hcells). apply length_seq. }
  exists (mk_ndarray (removelast (shape a)) cells).
  exists (List.concat
            (map (fun i => map (field_value float_pattern dtype)
                             (row inner (flat a) i))
               (seq 0 count))).
  split; [exact Hpack|]. cbn [flat]. split.
  - rewrite (unpack_all_decoded cells dtype (shape a) _ _ false
               (map (fun i => map (field_value float_pattern dtype)
                                (row inner (flat a) i))
                  (seq 0 count))).
    + f_equal. fold count. apply skipn_all2. lia.
    + assumption.
    + fold count. lia.
    + fold count inner. rewrite firstn_all2 by lia.
      apply Forall2_flip, Forall2_map_l.
      eapply Forall2_impl_in; [|exact Hcells].
      cbv beta. intros i c Hin [Hp _]. apply in_seq in Hin.
      destruct (slices_of_legal_tensor a dtype i Hs Hw Hl) as [Hv Hlen];
        [fold count; lia|]. fold inner in Hv, Hlen.
      rewrite (decode_word_fields _ _ _ _ _ _ _ Hp);
        [|apply row_number_nonnegative|apply bitwidth_positive|lia].
      pose proof (fields_of_row_number dtype (row inner (flat a) i)) as Hf.
      rewrite Hlen in Hf. unfold oriented.
      now rewrite Hf, map_rev, rev_involutive.
  - match goal with
    | |- _ /\ ?G =>
        enough (HQ : G)
          by (split; [exact (float32_ints_of_samples _ _ HQ Hf32)|exact HQ])
    end.
    rewrite concat_map, map_map.
    assert (Hbuf : List.length (flat a) = (count * inner)%nat).
    { unfold well_shaped in Hw. now rewrite Hw, size_of_split. }
    match goal with
    | |- Forall2 _ ?l _ =>
        enough (HF : Forall2 Qeq l
                       (List.concat (map (row inner (flat a)) (seq 0 count))))
          by (now rewrite (concat_rows inner (flat a) count Hbuf) in HF)
    end.
    apply Forall2_concat_rows. intros i Hin.
    assert (Hv : legal dtype (row inner (flat a) i)) by now apply Forall_row.
    assert (Hp : Forall (fun x => (0 <= x)%Q) (row inner (flat a) i))
      by now apply Forall_row.
    induction Hv as [|x v Hx Hv IH]; [constructor|].
    inversion Hp as [|? ? Hx0 Hp']. subst.
    cbn [map]. constructor; [|now apply IH].
    now apply field_value_nonnegative.
Qed.

(** X21.  The packing [numpy_to_hls_code] does by default asks for the
    width of a row, so it never overflows on a legal array of float32
    values; but it returns only when this width is at most four bits or a
    multiple of four, and ends with InterpretError otherwise. *)
Theorem hls_packing_needs_whole_digits (a : ndarray Q) (dtype : DataType.t) :
  shape a <> [] -> well_shaped a -> legal dtype (flat a) ->
  float32_row (flat a) ->
  size_of (removelast (shape a)) <> 0%nat ->
  let idimbits := (last (shape a) 0%nat * DataType.bitwidth dtype)%nat in
  ((idimbits <= 4)%nat \/ (idimbits mod 4 = 0)%nat ->
   exists b,
     hls_packed float_pattern a dtype
     = Ok (b, ("ap_uint<" ++ Python.decimal idimbits ++ ">")%string))
  /\ ((4 < idimbits)%nat -> (idimbits mod 4 <> 0)%nat ->
      hls_packed float_pattern a dtype = Raise InterpretError).
Proof.
  intros Hs Hw Hl _ Hn idimbits.
  destruct (packer_outcome float_pattern a dtype (Z.of_nat idimbits) Hs Hw Hl Hn)
    as (Hok & _ & Hbad).
  fold idimbits in Hok, Hbad.
  assert (Hmod : Z.of_nat idimbits mod 4 = Z.of_nat (idimbits mod 4))
    by now rewrite Nat2Z.inj_mod.
  unfold hls_packed. destruct (shape a) as [|d0 shp'] eqn:Hshape; [congruence|].
  fold idimbits. unfold padded_width in *. clearbody idimbits. split.
  - intros H. destruct Hok as [b Hb]; [apply Z.le_max_l| |].
    + destruct (Z.max_spec (Z.of_nat idimbits) 4) as [[_ ->]|[Hge ->]];
        [reflexivity|].
      destruct H as [H|H]; [|now rewrite Hmod, H].
      replace idimbits with 4%nat by lia. reflexivity.
    + exists b. now rewrite Hb.
  - intros H4 Hm. rewrite Hbad; [reflexivity|apply Z.le_max_l|].
    rewrite Z.max_l by lia. lia.
Qed.

End Pipeline.

Lemma rtlsim_input_numbers_witness :
  npy_to_rtlsim_input example_pattern
    (fun _ => Ok (mk_ndarray [2; 2]%nat [1 # 1; -2 # 1; 0 # 1; -1 # 1]))
    "in.npy" DataType.INT2 4
  = Ok [9; 12].
Proof.
  apply (rtlsim_input_numbers example_pattern
           (fun _ => Ok (mk_ndarray [2; 2]%nat [1 # 1; -2 # 1; 0 # 1; -1 # 1]))
           "in.npy" (mk_ndarray [2; 2]%nat [1 # 1; -2 # 1; 0 # 1; -1 # 1])
           DataType.INT2 4).
  - reflexivity.
  - discriminate.
  - reflexivity.
  - repeat constructor.
  - repeat constructor.
  - discriminate.
  - vm_compute. discriminate.
  - reflexivity.
Defined.

Lemma simulation_round_trip_witness :
  exists ns zs,
    npy_to_rtlsim_input example_pattern
      (fun _ => Ok (mk_ndarray [2; 2]%nat [1 # 1; -2 # 1; 0 # 1; -1 # 1]))
      "in.npy" DataType.INT2 4
    = Ok ns
    /\ rtlsim_output_to_npy ns "out.npy" DataType.INT2 [2; 2]%nat
         (Z.to_nat (padded_width 4)) 2
       = Ok ("out.npy"%string, mk_ndarray [2; 2]%nat zs)
    /\ float32_ints zs
    /\ Forall2 Qeq (map inject_Z zs) [1 # 1; -2 # 1; 0 # 1; -1 # 1].
Proof.
  apply (simulation_round_trip example_pattern
           (fun _ => Ok (mk_ndarray [2; 2]%nat [1 # 1; -2 # 1; 0 # 1; -1 # 1]))
           "in.npy" "out.npy"
           (mk_ndarray [2; 2]%nat [1 # 1; -2 # 1; 0 # 1; -1 # 1])
           DataType.INT2 4).
  - reflexivity.
  - reflexivity.
  - discriminate.
  - reflexivity.
  - repeat constructor.
  - repeat constructor.
  - discriminate.
  - vm_compute. discriminate.
  - reflexivity.
Defined.

Lemma packed_tensor_is_unpacked_witness :
  exists b zs,
    pack_innermost_dim_as_hex_string example_pattern
      (mk_ndarray [2; 2; 2]%nat
         [3 # 1; 3 # 1; 3 # 1; 3 # 1; 1 # 1; 3 # 1; 3 # 1; 1 # 1])
      (DataType.UINT 2) 8
    = Ok b
    /\ unpack_innermost_dim_from_hex_string (flat b) (DataType.UINT 2)
         [2; 2; 2]%nat (Z.to_nat (padded_width 8)) 2 false
       = (Ok (mk_ndarray [2; 2; 2]%nat zs), [])
    /\ float32_ints zs
    /\ Forall2 Qeq (map inject_Z zs)
         [3 # 1; 3 # 1; 3 # 1; 3 # 1; 1 # 1; 3 # 1; 3 # 1; 1 # 1].
Proof.
  apply (packed_tensor_is_unpacked example_pattern
           (mk_ndarray [2; 2; 2]%nat
              [3 # 1; 3 # 1; 3 # 1; 3 # 1; 1 # 1; 3 # 1; 3 # 1; 1 # 1])
           (DataType.UINT 2) 8).
  - reflexivity.
  - discriminate.
  - reflexivity.
  - repeat constructor.
  - repeat constructor.
  - repeat constructor; unfold Qle; cbn; lia.
  - discriminate.
  - vm_compute. discriminate.
  - reflexivity.
Defined.

Lemma hls_packing_needs_whole_digits_witness :
  hls_packed example_pattern
    (mk_ndarray [2; 3]%nat [1 # 1; 2 # 1; 3 # 1; 0 # 1; 1 # 1; 2 # 1])
    (DataType.UINT 2)
  = Raise InterpretError.
Proof.
  apply (proj2 (hls_packing_needs_whole_digits example_pattern
           (mk_ndarray [2; 3]%nat [1 # 1; 2 # 1; 3 # 1; 0 # 1; 1 # 1; 2 # 1])
           (DataType.UINT 2)
           ltac:(discriminate) ltac:(reflexivity) ltac:(repeat constructor)
           ltac:(repeat constructor) ltac:(discriminate))).
  - vm_compute. lia.
  - vm_compute. lia.
Defined.
